(** * moonjinja: the template packer [src/gen_templates.py]

    A shallow embedding of the build-time generator that packs the files of
    [src/templates] into the MoonBit source file [src/template.mbt], and the
    properties of its escaping transform and of the text it writes.

    Python [str] values are modelled as [string] (a sequence of characters of
    type [ascii]); [str.replace], [str.endswith] and [os.path.join] are
    written out as the functions they are on such sequences.  Where the
    encoding matters (writing the output file), a [string] is read as the
    UTF-8 bytes of the [str]: a file name that is not valid UTF-8 is the
    [str] with lone surrogates that [os.listdir] returns for it, which the
    UTF-8 encoder of the output file refuses. *)

From Stdlib Require Import Strings.String Strings.Ascii Lists.List Bool Arith Lia.
From Stdlib Require Import Numbers.DecimalString.
Import ListNotations.

Local Open Scope list_scope.
Local Open Scope string_scope.

(** ** Characters and constants of the script *)

Definition backslash : ascii := "092"%char.
Definition dquote : ascii := "034"%char.
Definition newline : ascii := "010"%char.

(** A one-character and a two-character Python string. *)
Definition str1 (a : ascii) : string := String a EmptyString.
Definition str2 (a b : ascii) : string := String a (String b EmptyString).

Definition TEMPLATE_DIR : string := "src/templates".
Definition OUTPUT_FILE : string := "src/template.mbt".

(** ** [str.replace] *)

(** [old] is not empty: scan left to right; at a position where [old] starts,
    emit [new] and skip the rest of the occurrence (occurrences do not
    overlap), otherwise copy the character.  [skip] counts the characters of
    the current occurrence still to be dropped. *)
Fixpoint replace_from (old new : string) (skip : nat) (s : string) : string :=
  match s with
  | EmptyString => EmptyString
  | String c s' =>
      match skip with
      | S k => replace_from old new k s'
      | O =>
          if prefix old s
          then new ++ replace_from old new (String.length old - 1) s'
          else String c (replace_from old new 0 s')
      end
  end.

(** [old] is empty: Python puts [new] before every character and at the end. *)
Fixpoint replace_empty (new s : string) : string :=
  match s with
  | EmptyString => new
  | String c s' => new ++ String c (replace_empty new s')
  end.

(** [s.replace(old, new)] *)
Definition replace (old new s : string) : string :=
  match old with
  | EmptyString => replace_empty new s
  | String _ _ => replace_from old new 0 s
  end.

(** [replace] when [old] is the single character [a]: every [a] becomes
    [new], every other character stays. *)
Fixpoint replace_char (a : ascii) (new s : string) : string :=
  match s with
  | EmptyString => EmptyString
  | String c s' =>
      (if Ascii.eqb a c then new else str1 c) ++ replace_char a new s'
  end.

(** ** [escape_content] *)

Definition escape_content (content : string) : string :=
  replace (str1 newline) (str2 backslash "n")
    (replace (str1 dquote) (str2 backslash dquote)
       (replace (str1 backslash) (str2 backslash backslash) content)).

(** The replacement text of one character under the three rules. *)
Definition escape_char (c : ascii) : string :=
  if Ascii.eqb c backslash then str2 backslash backslash
  else if Ascii.eqb c dquote then str2 backslash dquote
  else if Ascii.eqb c newline then str2 backslash "n"
  else str1 c.

Fixpoint escape_each (s : string) : string :=
  match s with
  | EmptyString => EmptyString
  | String c s' => escape_char c ++ escape_each s'
  end.

(** The three replacements taken in the opposite order (backslash last), to
    compare with the order the script uses. *)
Definition escape_backslash_last (content : string) : string :=
  replace (str1 backslash) (str2 backslash backslash)
    (replace (str1 newline) (str2 backslash "n")
       (replace (str1 dquote) (str2 backslash dquote) content)).

(** What the opposite order does to one character: the backslash that the
    quote and newline rules introduce is doubled by the backslash rule. *)
Definition escape_char_late (c : ascii) : string :=
  if Ascii.eqb c backslash then str2 backslash backslash
  else if Ascii.eqb c dquote then String backslash (str2 backslash dquote)
  else if Ascii.eqb c newline then String backslash (str2 backslash "n")
  else str1 c.

Fixpoint escape_each_late (s : string) : string :=
  match s with
  | EmptyString => EmptyString
  | String c s' => escape_char_late c ++ escape_each_late s'
  end.

(** The number of quotes and newlines of a string. *)
Fixpoint count_quoted (s : string) : nat :=
  match s with
  | EmptyString => 0
  | String c s' =>
      (if Ascii.eqb c dquote || Ascii.eqb c newline then 1 else 0) + count_quoted s'
  end.

(** [special c]: [c] is one of the three characters the transform rewrites. *)
Definition special (c : ascii) : bool :=
  Ascii.eqb c backslash || Ascii.eqb c dquote || Ascii.eqb c newline.

Fixpoint plain (s : string) : bool :=
  match s with
  | EmptyString => true
  | String c s' => negb (special c) && plain s'
  end.

(** ** Reading a string literal back

    The inverse the specification names: the usual unescaping of the
    sequences backslash-backslash, backslash-quote and backslash-n, scanning
    left to right.  A backslash followed by anything else is kept as it is.
    This definition follows the specification's words; the script has no
    such function. *)
Fixpoint unescape (s : string) : string :=
  match s with
  | EmptyString => EmptyString
  | String c s' =>
      if Ascii.eqb c backslash then
        match s' with
        | EmptyString => String c EmptyString
        | String d s'' =>
            if Ascii.eqb d backslash then String backslash (unescape s'')
            else if Ascii.eqb d dquote then String dquote (unescape s'')
            else if Ascii.eqb d "n" then String newline (unescape s'')
            else String c (String d (unescape s''))
        end
      else String c (unescape s')
  end.

(** ** [str.endswith], [os.path.join], [str(n)] *)

(** [s.endswith(suffix)]: [suffix] is [s] or ends a tail of [s]. *)
Fixpoint endswith (s suffix : string) : bool :=
  String.eqb s suffix ||
  match s with
  | EmptyString => false
  | String _ s' => endswith s' suffix
  end.

(** [os.path.join(a, b)] of [posixpath]: an absolute [b] replaces [a];
    the separator is added unless [a] is empty or already ends with it. *)
Definition path_join (a b : string) : string :=
  if prefix "/" b then b
  else if String.eqb a EmptyString || endswith a "/" then a ++ b
  else a ++ "/" ++ b.

(** [str(n)] for a length. *)
Definition str_of_nat (n : nat) : string :=
  NilEmpty.string_of_uint (Nat.to_uint n).

(** ** The UTF-8 encoder of the output file

    [out.write(s)] encodes [s] with the strict UTF-8 codec.  On the bytes
    that stand for [s], the encoder accepts exactly the well-formed UTF-8
    sequences (no overlong form, no surrogate, nothing above U+10FFFF):
    the automaton below reads one byte at a time. *)
Inductive utf8_state : Type :=
| U_start   (* between two characters *)
| U_tail1   (* one continuation byte to come *)
| U_tail2   (* two continuation bytes to come *)
| U_tail3   (* three continuation bytes to come *)
| U_E0      (* after E0: A0..BF, then one continuation byte *)
| U_ED      (* after ED: 80..9F, then one continuation byte *)
| U_F0      (* after F0: 90..BF, then two continuation bytes *)
| U_F4.     (* after F4: 80..8F, then two continuation bytes *)

Definition between (lo hi b : nat) : bool := Nat.leb lo b && Nat.leb b hi.

Definition utf8_step (st : utf8_state) (c : ascii) : option utf8_state :=
  let b := nat_of_ascii c in
  match st with
  | U_start =>
      if Nat.ltb b 128 then Some U_start
      else if between 194 223 b then Some U_tail1
      else if Nat.eqb b 224 then Some U_E0
      else if between 225 236 b || between 238 239 b then Some U_tail2
      else if Nat.eqb b 237 then Some U_ED
      else if Nat.eqb b 240 then Some U_F0
      else if between 241 243 b then Some U_tail3
      else if Nat.eqb b 244 then Some U_F4
      else None
  | U_tail1 => if between 128 191 b then Some U_start else None
  | U_tail2 => if between 128 191 b then Some U_tail1 else None
  | U_tail3 => if between 128 191 b then Some U_tail2 else None
  | U_E0 => if between 160 191 b then Some U_tail1 else None
  | U_ED => if between 128 159 b then Some U_tail1 else None
  | U_F0 => if between 144 191 b then Some U_tail2 else None
  | U_F4 => if between 128 143 b then Some U_tail2 else None
  end.

Fixpoint utf8_run (st : utf8_state) (s : string) : option utf8_state :=
  match s with
  | EmptyString => Some st
  | String c s' =>
      match utf8_step st c with
      | Some st' => utf8_run st' s'
      | None => None
      end
  end.

(** [s.encode("utf-8")] does not raise. *)
Definition encodable (s : string) : bool :=
  match utf8_run U_start s with
  | Some U_start => true
  | _ => false
  end.

(** ** The world the script runs in

    A path names a regular file, a directory, or nothing.  A regular file
    holds the text [f.read()] returns under the UTF-8 decoding, or [None]
    when opening, reading or decoding it raises; a text that [f.read()]
    returned is encodable, and a world whose file holds another text stands
    for no real file.  A directory holds the names [os.listdir] returns, in
    the order it returns them.  Opening the output path for writing raises
    when the path names a directory; permissions and parent directories are
    not part of the world. *)
Inductive node : Type :=
| File (text : option string)
| Dir (names : list string).

Definition filesystem : Type := string -> option node.

Definition update (fs : filesystem) (p : string) (n : node) : filesystem :=
  fun q => if String.eqb q p then Some n else fs q.

(** What the run does to the outside, in the order it does it.  The
    events of [open] and [listdir] record the call, whether it raises or
    not; [EWrite] records a text that was written. *)
Inductive event : Type :=
| EListdir (path : string)
| EOpenRead (path : string)
| EOpenWrite (path : string)
| EWrite (path text : string)
| EPrint (line : string).

Record world : Type := World { files : filesystem; log : list event }.

Inductive exn : Type :=
| FileNotFoundError (path : string)
| NotADirectoryError (path : string)
| IsADirectoryError (path : string)
| ReadError (path : string)
| UnicodeEncodeError (text : string).

Inductive result (A : Type) : Type :=
| Ok (a : A)
| Raise (e : exn).
Arguments Ok {A} a.
Arguments Raise {A} e.

(** A computation threads the world and may raise; the world reached when
    the exception is raised is kept. *)
Definition M (A : Type) : Type := world -> result A * world.

Definition ret {A} (a : A) : M A := fun w => (Ok a, w).

Definition bind {A B} (c : M A) (k : A -> M B) : M B :=
  fun w =>
    match c w with
    | (Ok a, w') => k a w'
    | (Raise e, w') => (Raise e, w')
    end.

Declare Scope py_scope.
Delimit Scope py_scope with py.
Notation "x <- c ;; k" := (bind c (fun x => k))
  (at level 61, c at next level, right associativity) : py_scope.
Notation "c ;; k" := (bind c (fun _ => k))
  (at level 61, right associativity) : py_scope.
Local Open Scope py_scope.

Definition emit (e : event) (w : world) : world :=
  World (files w) (log w ++ [e])%list.

(** [os.path.exists(p)] *)
Definition path_exists (p : string) : M bool :=
  fun w => (Ok (match files w p with Some _ => true | None => false end), w).

(** [os.listdir(p)] *)
Definition listdir (p : string) : M (list string) :=
  fun w =>
    let w' := emit (EListdir p) w in
    match files w p with
    | Some (Dir names) => (Ok names, w')
    | Some (File _) => (Raise (NotADirectoryError p), w')
    | None => (Raise (FileNotFoundError p), w')
    end.

(** The outcome of opening and reading the path [p] in a file system. *)
Definition read_result (fs : filesystem) (p : string) : result string :=
  match fs p with
  | Some (File (Some text)) => Ok text
  | Some (File None) => Raise (ReadError p)
  | Some (Dir _) => Raise (IsADirectoryError p)
  | None => Raise (FileNotFoundError p)
  end.

(** [with open(p, "r", encoding="utf-8") as f: f.read()] *)
Definition read_text (p : string) : M string :=
  fun w => (read_result (files w) p, emit (EOpenRead p) w).

(** [open(p, "w", encoding="utf-8")]: on a directory the call raises;
    otherwise the file is created or truncated; the handle is the path. *)
Definition open_write (p : string) : M string :=
  fun w =>
    match files w p with
    | Some (Dir _) => (Raise (IsADirectoryError p), emit (EOpenWrite p) w)
    | _ =>
        (Ok p, World (update (files w) p (File (Some EmptyString)))
                     (log w ++ [EOpenWrite p])%list)
    end.

Definition text_at (fs : filesystem) (p : string) : string :=
  match fs p with
  | Some (File (Some t)) => t
  | _ => EmptyString
  end.

(** [out.write(s)]: a text that the encoder refuses raises and nothing of
    it is written; what was written before stays in the file, which the
    [with] statement closes. *)
Definition write (out s : string) : M unit :=
  fun w =>
    if encodable s then
      (Ok tt, World (update (files w) out (File (Some (text_at (files w) out ++ s))))
                    (log w ++ [EWrite out s])%list)
    else (Raise (UnicodeEncodeError s), w).

(** [print(s)] *)
Definition print (s : string) : M unit :=
  fun w => (Ok tt, emit (EPrint s) w).

(** [for x in xs: acc = body(x, acc)] *)
Fixpoint for_each {A S : Type} (xs : list A) (body : A -> S -> M S) (acc : S) : M S :=
  match xs with
  | [] => ret acc
  | x :: xs' => acc' <- body x acc ;; for_each xs' body acc'
  end.

(** ** The text the script writes *)

Definition HEADER : string :=
  "pub fn load_template(name: String) -> String!JinjaError {".
Definition MATCH_OPEN : string := "  match name {".
Definition FALLBACK_MESSAGE : string := "Template not found: ".
Definition FALLBACK : string :=
  "    _ => raise RenderError(" ++ String dquote FALLBACK_MESSAGE
    ++ String dquote " + name)".
Definition MATCH_CLOSE : string := "  }".
Definition FN_CLOSE : string := "}".
Definition nl : string := str1 newline.

(** The f-string of one entry: four spaces, the file name between quotes,
    [ => return ], the content between quotes. *)
Definition arm_line (fname content : string) : string :=
  "    " ++ String dquote fname ++ String dquote " => return "
    ++ String dquote content ++ str1 dquote.

(** The two f-strings [main] prints. *)
Definition missing_line (dir : string) : string :=
  " Folder '" ++ dir ++ "' not found.".

Definition success_line (out : string) (n : nat) : string :=
  " Generated " ++ out ++ " with " ++ str_of_nat n ++ " templates.".

(** ** [main] *)

(** The body of the first loop for one directory entry. *)
Definition collect_entry (fname : string) (entries : list string) : M (list string) :=
  if endswith fname ".html" then
    let path := path_join TEMPLATE_DIR fname in
    raw <- read_text path ;;
    let content := escape_content raw in
    ret (entries ++ [arm_line fname content])%list
  else ret entries.

Definition write_output (entries : list string) : M unit :=
  out <- open_write OUTPUT_FILE ;;
  write out (HEADER ++ nl) ;;
  write out (MATCH_OPEN ++ nl) ;;
  for_each entries (fun line _ => write out (line ++ nl)) tt ;;
  write out (FALLBACK ++ nl) ;;
  write out (MATCH_CLOSE ++ nl) ;;
  write out (FN_CLOSE ++ nl).

Definition main : M unit :=
  found <- path_exists TEMPLATE_DIR ;;
  if negb found then
    print (missing_line TEMPLATE_DIR)
  else
    names <- listdir TEMPLATE_DIR ;;
    entries <- for_each names collect_entry [] ;;
    write_output entries ;;
    print (success_line OUTPUT_FILE (List.length entries)).

(** The text of the output file, when there is one. *)
Definition output_text (w : world) : option string :=
  match files w OUTPUT_FILE with
  | Some (File t) => t
  | _ => None
  end.

(** The lines printed so far. *)
Fixpoint printed (l : list event) : list string :=
  match l with
  | [] => []
  | EPrint s :: l' => s :: printed l'
  | _ :: l' => printed l'
  end.

(** ** What the script computes, stated without the world *)

(** The names the first loop opens. *)
Definition matched (names : list string) : list string :=
  filter (fun fname => endswith fname ".html") names.

(** What the second loop writes: every entry followed by a line break. *)
Fixpoint join_lines (entries : list string) : string :=
  match entries with
  | [] => EmptyString
  | line :: entries' => line ++ nl ++ join_lines entries'
  end.

(** The whole text of the generated file for a list of entries. *)
Definition program_text (entries : list string) : string :=
  HEADER ++ nl ++ MATCH_OPEN ++ nl
    ++ join_lines entries
    ++ FALLBACK ++ nl ++ MATCH_CLOSE ++ nl ++ FN_CLOSE ++ nl.

(** The entries of a list of (name, text) pairs. *)
Definition entries_of (templates : list (string * string)) : list string :=
  map (fun t => arm_line (fst t) (escape_content (snd t))) templates.

(** [read_all fs names]: the (name, text) pairs of [names], read in order
    from the template directory, or the exception of the first read that
    fails. *)
Fixpoint read_all (fs : filesystem) (names : list string) : result (list (string * string)) :=
  match names with
  | [] => Ok []
  | fname :: names' =>
      match read_result fs (path_join TEMPLATE_DIR fname) with
      | Raise e => Raise e
      | Ok t =>
          match read_all fs names' with
          | Ok ts => Ok ((fname, t) :: ts)
          | Raise e => Raise e
          end
      end
  end.

(** ** The trace of a run *)

(** The texts of a sequence of [out.write] calls that are written: those
    before the first one that the encoder refuses. *)
Fixpoint accepted (texts : list string) : list string :=
  match texts with
  | [] => []
  | t :: texts' => if encodable t then t :: accepted texts' else []
  end.

(** The outcome of a sequence of [out.write] calls. *)
Fixpoint write_outcome (texts : list string) : result unit :=
  match texts with
  | [] => Ok tt
  | t :: texts' =>
      if encodable t then write_outcome texts' else Raise (UnicodeEncodeError t)
  end.

(** The world after a sequence of [out.write] calls. *)
Fixpoint written (out : string) (texts : list string) (w : world) : world :=
  match texts with
  | [] => w
  | t :: texts' =>
      if encodable t then written out texts' (snd (write out t w)) else w
  end.

Fixpoint concat_all (texts : list string) : string :=
  match texts with
  | [] => EmptyString
  | t :: texts' => t ++ concat_all texts'
  end.

(** The arguments of the [out.write] calls of a run, in order. *)
Definition written_lines (entries : list string) : list string :=
  (HEADER ++ nl) :: (MATCH_OPEN ++ nl)
    :: List.app (map (fun line => line ++ nl) entries)
         [FALLBACK ++ nl; MATCH_CLOSE ++ nl; FN_CLOSE ++ nl].

Definition read_events (templates : list (string * string)) : list event :=
  map (fun t => EOpenRead (path_join TEMPLATE_DIR (fst t))) templates.

Definition write_events (entries : list string) : list event :=
  EOpenWrite OUTPUT_FILE :: map (EWrite OUTPUT_FILE) (written_lines entries).

(** The events of a run that reads [templates] and writes the file. *)
Definition success_events (templates : list (string * string)) : list event :=
  (EListdir TEMPLATE_DIR :: read_events templates
     ++ write_events (entries_of templates)
     ++ [EPrint (success_line OUTPUT_FILE (List.length templates))])%list.

Definition same_files (fs fs' : filesystem) : Prop := forall q, fs q = fs' q.

(** ** Reading the generated MoonBit function

    The generated file is MoonBit source: a function whose body is a [match]
    on [name] with one arm per string-literal pattern and a wildcard arm.
    To say what the file means, it is read back: the text is cut into lines,
    every arm line is lexed as [    "pattern" => return "body"], and the
    function is run by taking the first arm whose pattern is the name.

    A double-quoted literal ends at the first quote that no backslash
    escapes and cannot hold a line break; this reader decodes the three
    escape sequences the generator produces and rejects any other. *)

(** [s.split("\n")] *)
Fixpoint split_lines (s : string) : list string :=
  match s with
  | EmptyString => [EmptyString]
  | String c s' =>
      if Ascii.eqb c newline then EmptyString :: split_lines s'
      else
        match split_lines s' with
        | l :: ls => String c l :: ls
        | [] => [str1 c]
        end
  end.

Fixpoint strip_prefix (p s : string) : option string :=
  match p, s with
  | EmptyString, _ => Some s
  | String a p', String b s' => if Ascii.eqb a b then strip_prefix p' s' else None
  | String _ _, EmptyString => None
  end.

(** The character an escape sequence stands for. *)
Definition escaped (d : ascii) : option ascii :=
  if Ascii.eqb d backslash then Some backslash
  else if Ascii.eqb d dquote then Some dquote
  else if Ascii.eqb d "n" then Some newline
  else None.

(** [lex_literal s]: [s] starts just after an opening quote; the value of
    the literal and the text after its closing quote. *)
Fixpoint lex_literal (s : string) : option (string * string) :=
  match s with
  | EmptyString => None
  | String c s' =>
      if Ascii.eqb c dquote then Some (EmptyString, s')
      else if Ascii.eqb c newline then None
      else if Ascii.eqb c backslash then
        match s' with
        | EmptyString => None
        | String d s'' =>
            match escaped d, lex_literal s'' with
            | Some x, Some (v, r) => Some (String x v, r)
            | _, _ => None
            end
        end
      else
        match lex_literal s' with
        | Some (v, r) => Some (String c v, r)
        | None => None
        end
  end.

(** One arm line: the pattern and the returned value. *)
Definition parse_arm (line : string) : option (string * string) :=
  match strip_prefix ("    " ++ str1 dquote) line with
  | None => None
  | Some r1 =>
      match lex_literal r1 with
      | None => None
      | Some (pat, r2) =>
          match strip_prefix (" => return " ++ str1 dquote) r2 with
          | None => None
          | Some r3 =>
              match lex_literal r3 with
              | Some (body, EmptyString) => Some (pat, body)
              | _ => None
              end
          end
      end
  end.

(** The arm lines up to the wildcard arm, and the lines after it. *)
Fixpoint parse_arms (ls : list string) : option (list (string * string) * list string) :=
  match ls with
  | [] => None
  | l :: ls' =>
      if String.eqb l FALLBACK then Some ([], ls')
      else
        match parse_arm l, parse_arms ls' with
        | Some a, Some (arms, rest) => Some (a :: arms, rest)
        | _, _ => None
        end
  end.

(** A whole file: the header, the opening of the match, the arms, the
    wildcard arm, the two closing braces, each on its own line. *)
Definition parse_program (text : string) : option (list (string * string)) :=
  match split_lines text with
  | h :: m :: ls =>
      if String.eqb h HEADER && String.eqb m MATCH_OPEN then
        match parse_arms ls with
        | Some (arms, [c1; c2; e]) =>
            if String.eqb c1 MATCH_CLOSE && String.eqb c2 FN_CLOSE
               && String.eqb e EmptyString
            then Some arms else None
        | _ => None
        end
      else None
  | _ => None
  end.

(** What a call of the generated function does. *)
Inductive outcome : Type :=
| Returned (value : string)
| RenderError (message : string).

(** The match: the first arm whose pattern is [name] returns; the wildcard
    arm raises [RenderError("Template not found: " + name)]. *)
Fixpoint eval_match (arms : list (string * string)) (name : string) : outcome :=
  match arms with
  | [] => RenderError (FALLBACK_MESSAGE ++ name)
  | (pat, body) :: arms' =>
      if String.eqb pat name then Returned body else eval_match arms' name
  end.

(** Calling the function a generated file defines; [None] when the file is
    not such a function definition. *)
Definition load_template (text name : string) : option outcome :=
  option_map (fun arms => eval_match arms name) (parse_program text).

Fixpoint no_newline (s : string) : bool :=
  match s with
  | EmptyString => true
  | String c s' => negb (Ascii.eqb c newline) && no_newline s'
  end.

(** Every file name of the list is free of backslash, quote and newline. *)
Definition plain_names (templates : list (string * string)) : bool :=
  forallb (fun t => plain (fst t)) templates.

(** ** Concrete worlds *)

(** The text [a], backslash, quote, newline, [b] of the specification's
    example. *)
Definition mixed_text : string :=
  String "a" (String backslash (String dquote (String newline "b"))).

Definition no_files : filesystem := fun _ => None.

(** A world holding the template directory with the given (name, node)
    entries, listed in this order, and nothing else. *)
Fixpoint add_templates (entries : list (string * node)) (fs : filesystem) : filesystem :=
  match entries with
  | [] => fs
  | (fname, n) :: entries' =>
      update (add_templates entries' fs) (path_join TEMPLATE_DIR fname) n
  end.

Definition packed (entries : list (string * node)) : world :=
  World (update (add_templates entries no_files) TEMPLATE_DIR (Dir (map fst entries))) [].

Definition readable (t : string) : node := File (Some t).

Definition empty_world : world := World no_files [].

(** The directory of the specification's example: [a.html] and [notes.txt]. *)
Definition html_world : world :=
  packed [("a.html", readable "<p>hi</p>"); ("notes.txt", readable "todo")].

(** A directory without any [.html] file. *)
Definition notes_world : world := packed [("notes.txt", File None)].

(** A directory whose only template cannot be read, next to an output file
    left by an earlier run. *)
Definition unreadable_world : world :=
  World (update (files (packed [("a.html", File None)])) OUTPUT_FILE (readable "old")) [].

(** The generated text without any entry. *)
Definition EMPTY_PROGRAM : string :=
  HEADER ++ nl ++ MATCH_OPEN ++ nl ++ FALLBACK ++ nl
    ++ MATCH_CLOSE ++ nl ++ FN_CLOSE ++ nl.

(** The file name made of [a], a double quote and [b.html]. *)
Definition quoted_name : string := String "a" (String dquote "b.html").

(** The file name made of [a], a backslash and [nb.html], and the name that
    has a line break where that one has the backslash and the [n]. *)
Definition escaped_name : string := String "a" (String backslash "nb.html").
Definition line_break_name : string := String "a" (String newline "b.html").

Definition quoted_world : world := packed [(quoted_name, readable "x")].
Definition escaped_world : world := packed [(escaped_name, readable "x")].

(** Two worlds with the same sources: the same node at the template
    directory and at the path of every matched name it lists. *)
Definition same_sources (w w' : world) : Prop :=
  files w TEMPLATE_DIR = files w' TEMPLATE_DIR /\
  forall names fname,
    files w TEMPLATE_DIR = Some (Dir names) -> In fname (matched names) ->
    files w (path_join TEMPLATE_DIR fname) = files w' (path_join TEMPLATE_DIR fname).

(** [reads_before_write l]: no file is opened for reading once a file has
    been opened for writing. *)
Fixpoint no_reads (l : list event) : bool :=
  match l with
  | [] => true
  | EOpenRead _ :: _ => false
  | _ :: l' => no_reads l'
  end.

Fixpoint reads_before_write (l : list event) : bool :=
  match l with
  | [] => true
  | EOpenWrite _ :: l' => no_reads l'
  | _ :: l' => reads_before_write l'
  end.

(** The paths a trace opens for reading. *)
Fixpoint opened (l : list event) : list string :=
  match l with
  | [] => []
  | EOpenRead p :: l' => p :: opened l'
  | _ :: l' => opened l'
  end.

Fixpoint no_writes (l : list event) : bool :=
  match l with
  | [] => true
  | EOpenWrite _ :: _ => false
  | EWrite _ _ :: _ => false
  | _ :: l' => no_writes l'
  end.

(** ** Further measures and worlds *)

(** The number of characters of a string that the transform rewrites. *)
Fixpoint count_special (s : string) : nat :=
  match s with
  | EmptyString => 0
  | String c s' => (if special c then 1 else 0) + count_special s'
  end.

(** The paths the first loop opens for a list of matched names: those of
    the names in order, up to and including the first one whose read
    raises. *)
Fixpoint attempted (fs : filesystem) (names : list string) : list string :=
  match names with
  | [] => []
  | fname :: names' =>
      path_join TEMPLATE_DIR fname ::
      match read_result fs (path_join TEMPLATE_DIR fname) with
      | Ok _ => attempted fs names'
      | Raise _ => []
      end
  end.

(** The text [line1], backslash, newline, [line2]. *)
Definition two_lines : string :=
  "line1" ++ String backslash (String newline "line2").

(** A directory with two templates, the second holding a backslash and a
    newline. *)
Definition two_templates : world :=
  packed [("a.html", readable "<p>hi</p>"); ("b.html", readable two_lines)].

(** A directory whose second template cannot be read; a third one follows. *)
Definition broken_second : world :=
  packed [("a.html", readable "<p>hi</p>"); ("b.html", File None);
          ("c.html", readable "c")].

(** A world where the template path names a regular file. *)
Definition file_for_directory : world :=
  World (update no_files TEMPLATE_DIR (readable "not a directory")) [].

(** The directory of [html_world] without [notes.txt]. *)
Definition html_only_world : world := packed [("a.html", readable "<p>hi</p>")].

(** No file name of the list holds a line break. *)
Definition newline_free_names (templates : list (string * string)) : bool :=
  forallb (fun t => no_newline (fst t)) templates.

(** ** What a run amounts to

    The outcome, the file system and the events of a run, as functions of
    the file system it starts from. *)

(** The output path can be opened for writing. *)
Definition output_openable (fs : filesystem) : bool :=
  match fs OUTPUT_FILE with
  | Some (Dir _) => false
  | _ => true
  end.

(** Every file name and every text of the list is encodable. *)
Definition encodable_templates (templates : list (string * string)) : bool :=
  forallb (fun t => encodable (fst t) && encodable (snd t)) templates.

Definition main_result (fs : filesystem) : result unit :=
  match fs TEMPLATE_DIR with
  | None => Ok tt
  | Some (File _) => Raise (NotADirectoryError TEMPLATE_DIR)
  | Some (Dir names) =>
      match read_all fs (matched names) with
      | Raise e => Raise e
      | Ok ts =>
          if output_openable fs
          then write_outcome (written_lines (entries_of ts))
          else Raise (IsADirectoryError OUTPUT_FILE)
      end
  end.

(** The text that a run leaves in the output file, when it reaches the
    writing phase. *)
Definition generated (fs : filesystem) : option string :=
  match fs TEMPLATE_DIR with
  | Some (Dir names) =>
      match read_all fs (matched names) with
      | Ok ts =>
          if output_openable fs
          then Some (concat_all (accepted (written_lines (entries_of ts))))
          else None
      | Raise _ => None
      end
  | _ => None
  end.

Definition main_files (fs : filesystem) : filesystem :=
  match generated fs with
  | Some text => update fs OUTPUT_FILE (File (Some text))
  | None => fs
  end.

(** The events of the writing phase. *)
Definition write_phase (templates : list (string * string)) : list event :=
  (EOpenWrite OUTPUT_FILE
     :: map (EWrite OUTPUT_FILE) (accepted (written_lines (entries_of templates)))
     ++ match write_outcome (written_lines (entries_of templates)) with
        | Ok _ => [EPrint (success_line OUTPUT_FILE (List.length templates))]
        | Raise _ => []
        end)%list.

Definition main_trace (fs : filesystem) : list event :=
  match fs TEMPLATE_DIR with
  | None => [EPrint (missing_line TEMPLATE_DIR)]
  | Some (File _) => [EListdir TEMPLATE_DIR]
  | Some (Dir names) =>
      EListdir TEMPLATE_DIR ::
      match read_all fs (matched names) with
      | Raise _ => map EOpenRead (attempted fs (matched names))
      | Ok ts =>
          (read_events ts
             ++ (if output_openable fs then write_phase ts
                 else [EOpenWrite OUTPUT_FILE]))%list
      end
  end.

(** A world whose output path names a directory. *)
Definition output_directory (w : world) : world :=
  World (update (files w) OUTPUT_FILE (Dir [])) (log w).

(** A file name that is not valid UTF-8: the byte 255 before [.html]. *)
Definition raw_name : string := String (ascii_of_nat 255) ".html".

(** A directory whose second template has that name. *)
Definition raw_name_world : world :=
  packed [("a.html", readable "<p>hi</p>"); (raw_name, readable "x")].

(** * Properties *)

(** ** Strings *)

Lemma app_nil_r_string (s : string) : s ++ EmptyString = s.
Proof. induction s as [|c s IH]; simpl; [reflexivity | now rewrite IH]. Qed.

Lemma app_assoc_string (s t u : string) : (s ++ t) ++ u = s ++ (t ++ u).
Proof. induction s as [|c s IH]; simpl; [reflexivity | now rewrite IH]. Qed.

Lemma ascii_dec_eqb {A} (a c : ascii) (x y : A) :
  (if ascii_dec a c then x else y) = (if Ascii.eqb a c then x else y).
Proof.
  destruct (ascii_dec a c) as [->|n].
  - now rewrite Ascii.eqb_refl.
  - apply Ascii.eqb_neq in n. now rewrite n.
Qed.

(** [str.replace] with a one-character pattern acts character by character. *)
Lemma replace_single (a : ascii) (new s : string) :
  replace (str1 a) new s = replace_char a new s.
Proof.
  unfold replace, str1.
  induction s as [|c s IH]; [reflexivity|].
  cbn [replace_from replace_char prefix String.length Nat.sub].
  rewrite ascii_dec_eqb.
  destruct (Ascii.eqb a c).
  - replace (prefix EmptyString s) with true by now destruct s.
    now rewrite IH.
  - now rewrite IH.
Qed.

Lemma replace_char_app (a : ascii) (new s t : string) :
  replace_char a new (s ++ t) = replace_char a new s ++ replace_char a new t.
Proof.
  induction s as [|c s IH]; simpl; [reflexivity|].
  now rewrite IH, app_assoc_string.
Qed.

Lemma escape_each_app (s t : string) :
  escape_each (s ++ t) = escape_each s ++ escape_each t.
Proof.
  induction s as [|c s IH]; simpl; [reflexivity|].
  now rewrite IH, app_assoc_string.
Qed.

(** Case analysis on a character: one of the three special ones, or none. *)
Lemma special_cases (c : ascii) :
  c = backslash \/ c = dquote \/ c = newline \/ special c = false.
Proof.
  unfold special.
  destruct (Ascii.eqb_spec c backslash); [now left|].
  destruct (Ascii.eqb_spec c dquote); [now right; left|].
  destruct (Ascii.eqb_spec c newline); [now right; right; left|].
  now right; right; right.
Qed.

Lemma not_special (c : ascii) :
  special c = false ->
  Ascii.eqb c backslash = false /\ Ascii.eqb c dquote = false
  /\ Ascii.eqb c newline = false.
Proof.
  unfold special. intros H.
  apply orb_false_iff in H as [H H3]. apply orb_false_iff in H as [H1 H2].
  auto.
Qed.

Lemma escape_char_plain (c : ascii) : special c = false -> escape_char c = str1 c.
Proof.
  intros H. apply not_special in H as (H1 & H2 & H3).
  unfold escape_char. now rewrite H1, H2, H3.
Qed.

Lemma replace_char_other (a c : ascii) (new : string) :
  Ascii.eqb c a = false -> replace_char a new (str1 c) = str1 c.
Proof.
  intros H. unfold str1. cbn [replace_char].
  now rewrite Ascii.eqb_sym, H.
Qed.

(** The three chained replacements rewrite every character once. *)
Lemma escape_content_each (s : string) : escape_content s = escape_each s.
Proof.
  unfold escape_content. rewrite !replace_single.
  induction s as [|c s IH]; [reflexivity|].
  cbn [replace_char escape_each].
  rewrite !replace_char_app, IH. f_equal.
  destruct (special_cases c) as [-> | [-> | [-> | H]]]; try reflexivity.
  rewrite (escape_char_plain c H).
  apply not_special in H as (H1 & H2 & H3).
  rewrite (Ascii.eqb_sym backslash c), H1.
  now rewrite !replace_char_other.
Qed.

Lemma unescape_escape_each (s : string) : unescape (escape_each s) = s.
Proof.
  induction s as [|c s IH]; [reflexivity|].
  cbn [escape_each].
  destruct (special_cases c) as [-> | [-> | [-> | H]]];
    try (cbn; now rewrite IH).
  rewrite (escape_char_plain c H).
  apply not_special in H as (H1 & _).
  cbn. now rewrite H1, IH.
Qed.

Lemma escape_each_plain (s : string) : plain s = true -> escape_each s = s.
Proof.
  induction s as [|c s IH]; [reflexivity|].
  cbn. intros H. apply andb_true_iff in H as [Hc Hs].
  apply negb_true_iff in Hc.
  now rewrite (escape_char_plain c Hc), (IH Hs).
Qed.

Lemma length_app_string (s t : string) :
  String.length (s ++ t) = String.length s + String.length t.
Proof. induction s as [|c s IH]; simpl; [reflexivity | now rewrite IH]. Qed.

Lemma escape_backslash_last_each (s : string) :
  escape_backslash_last s = escape_each_late s.
Proof.
  unfold escape_backslash_last. rewrite !replace_single.
  induction s as [|c s IH]; [reflexivity|].
  cbn [replace_char escape_each_late].
  rewrite !replace_char_app, IH. f_equal.
  destruct (special_cases c) as [-> | [-> | [-> | H]]]; try reflexivity.
  apply not_special in H as (H1 & H2 & H3).
  unfold escape_char_late. rewrite H1, H2, H3.
  rewrite (Ascii.eqb_sym dquote c), H2.
  now rewrite !replace_char_other.
Qed.

Lemma escape_each_late_length (s : string) :
  String.length (escape_each_late s)
  = String.length (escape_each s) + count_quoted s.
Proof.
  induction s as [|c s IH]; [reflexivity|].
  cbn [escape_each_late escape_each count_quoted].
  rewrite !length_app_string, IH.
  destruct (special_cases c) as [-> | [-> | [-> | H]]]; try (cbn; lia).
  apply not_special in H as (H1 & H2 & H3).
  unfold escape_char_late, escape_char. rewrite H1, H2, H3. cbn. lia.
Qed.

Lemma escape_each_late_same (s : string) :
  count_quoted s = 0 -> escape_each_late s = escape_each s.
Proof.
  induction s as [|c s IH]; [reflexivity|].
  cbn [escape_each_late escape_each count_quoted]. intros H.
  destruct (Ascii.eqb c dquote) eqn:H2; [discriminate|].
  destruct (Ascii.eqb c newline) eqn:H3; [discriminate|].
  rewrite (IH H). f_equal.
  unfold escape_char_late, escape_char. now rewrite H2, H3.
Qed.

(** ** The escaping transform *)

(** C1: for every text [s], unescaping [escape_content s] gives [s] back;
    hence [escape_content] is injective. *)
Theorem escape_content_roundtrip :
  (forall s, unescape (escape_content s) = s) /\
  (forall s t, escape_content s = escape_content t -> s = t).
Proof.
  assert (R : forall s, unescape (escape_content s) = s).
  { intros s. rewrite escape_content_each. apply unescape_escape_each. }
  split; [exact R|].
  intros s t H. rewrite <- (R s), <- (R t). now rewrite H.
Qed.

Lemma escape_content_roundtrip_mixed :
  unescape (escape_content mixed_text) = mixed_text /\
  (escape_content mixed_text = escape_content mixed_text -> mixed_text = mixed_text).
Proof.
  split.
  - apply (proj1 escape_content_roundtrip).
  - apply (proj2 escape_content_roundtrip).
Defined.

(** C6: [escape_content] is the three replacements in the order backslash,
    quote, newline; in that order every character of the input is rewritten
    exactly once (a backslash that the quote and newline rules introduce is
    never doubled), whereas with the backslash rule last the result differs
    as soon as the input holds a quote or a newline. *)
Theorem escape_content_order :
  (forall s,
     escape_content s
     = replace (str1 newline) (str2 backslash "n")
         (replace (str1 dquote) (str2 backslash dquote)
            (replace (str1 backslash) (str2 backslash backslash) s))) /\
  (forall s, escape_content s = escape_each s) /\
  (forall s, escape_backslash_last s = escape_content s <-> count_quoted s = 0) /\
  escape_content (str1 dquote) = str2 backslash dquote /\
  escape_backslash_last (str1 dquote) = String backslash (str2 backslash dquote).
Proof.
  split; [reflexivity|].
  split; [exact escape_content_each|].
  split; [|split; reflexivity].
  intros s. rewrite escape_backslash_last_each, escape_content_each. split.
  - intros H. apply (f_equal String.length) in H.
    rewrite escape_each_late_length in H. lia.
  - apply escape_each_late_same.
Qed.

(** C8: [escape_content] distributes over concatenation, and is the
    identity on a text without backslash, quote and newline: every other
    character passes through unchanged. *)
Theorem escape_content_homomorphism :
  (forall s t, escape_content (s ++ t) = escape_content s ++ escape_content t) /\
  (forall s, plain s = true -> escape_content s = s) /\
  (forall c, special c = false -> escape_content (str1 c) = str1 c).
Proof.
  split; [|split].
  - intros s t. rewrite !escape_content_each. apply escape_each_app.
  - intros s H. rewrite escape_content_each. now apply escape_each_plain.
  - intros c H. rewrite escape_content_each. cbn [str1 escape_each].
    rewrite (escape_char_plain c H). apply app_nil_r_string.
Qed.

Lemma escape_content_homomorphism_html :
  escape_content ("<p>" ++ mixed_text) = escape_content "<p>" ++ escape_content mixed_text /\
  (plain "<p>hi</p>" = true /\ escape_content "<p>hi</p>" = "<p>hi</p>") /\
  (special "p" = false /\ escape_content (str1 "p") = str1 "p").
Proof.
  destruct escape_content_homomorphism as (H1 & H2 & H3).
  split; [apply H1|]. split.
  - split; [reflexivity | apply H2; reflexivity].
  - split; [reflexivity | apply H3; reflexivity].
Defined.

(** ** The run of [main] *)

Lemma emit_eq (e : event) (w : world) : emit e w = World (files w) (log w ++ [e]).
Proof. reflexivity. Qed.

Lemma world_eta (w : world) : w = World (files w) (log w ++ []).
Proof. destruct w; simpl. now rewrite app_nil_r. Qed.

Lemma collect_entry_run (fname : string) (entries : list string) (w : world) :
  collect_entry fname entries w
  = if endswith fname ".html" then
      let p := path_join TEMPLATE_DIR fname in
      match read_result (files w) p with
      | Ok t =>
          (Ok (entries ++ [arm_line fname (escape_content t)])%list, emit (EOpenRead p) w)
      | Raise e => (Raise e, emit (EOpenRead p) w)
      end
    else (Ok entries, w).
Proof.
  unfold collect_entry, bind, read_text, ret.
  destruct (endswith fname ".html"); [|reflexivity].
  now destruct (read_result (files w) (path_join TEMPLATE_DIR fname)).
Qed.

(** The first loop: it reads the matched names in order and stops at the
    first one that cannot be read; it opens no other path and writes
    nothing. *)
Lemma collect_loop (names : list string) :
  forall (acc : list string) (w : world),
    match read_all (files w) (matched names) with
    | Ok ts =>
        for_each names collect_entry acc w
        = (Ok (acc ++ entries_of ts)%list, World (files w) (log w ++ read_events ts))
    | Raise e =>
        exists ps,
          for_each names collect_entry acc w
          = (Raise e, World (files w) (log w ++ map EOpenRead ps)) /\
          incl ps (map (path_join TEMPLATE_DIR) (matched names))
    end.
Proof.
  induction names as [|fname names IH]; intros acc w.
  - cbn. rewrite app_nil_r. unfold ret. f_equal. apply world_eta.
  - cbn [for_each matched filter]. fold (matched names).
    assert (STEP := collect_entry_run fname acc w). cbv zeta in STEP.
    destruct (endswith fname ".html") eqn:E.
    + cbn [read_all map].
      destruct (read_result (files w) (path_join TEMPLATE_DIR fname)) as [t|e] eqn:F.
      * specialize (IH (acc ++ [arm_line fname (escape_content t)])%list
                       (emit (EOpenRead (path_join TEMPLATE_DIR fname)) w)).
        cbn [emit files log] in IH.
        destruct (read_all (files w) (matched names)) as [ts|e].
        -- unfold bind. rewrite STEP, IH. cbn [entries_of map fst snd read_events].
           now rewrite <- !app_assoc.
        -- destruct IH as (ps & IH & I).
           exists (path_join TEMPLATE_DIR fname :: ps). split.
           ++ unfold bind. rewrite STEP, IH. now rewrite <- app_assoc.
           ++ intros p [<-|P]; [now left | right; now apply I].
      * exists [path_join TEMPLATE_DIR fname]. split.
        -- unfold bind. now rewrite STEP.
        -- intros p [<-|[]]. now left.
    + specialize (IH acc w).
      destruct (read_all (files w) (matched names)) as [ts|e].
      * unfold bind. now rewrite STEP.
      * destruct IH as (ps & IH & I). exists ps. split; [|exact I].
        unfold bind. now rewrite STEP.
Qed.

Lemma read_all_names (fs : filesystem) (names : list string) (ts : list (string * string)) :
  read_all fs names = Ok ts -> map fst ts = names.
Proof.
  revert ts. induction names as [|n names IH]; intros ts H; cbn in H.
  - now inversion H.
  - destruct (read_result fs (path_join TEMPLATE_DIR n)); [|discriminate].
    destruct (read_all fs names) as [ts'|]; [|discriminate].
    inversion H; subst. cbn. now rewrite (IH ts' eq_refl).
Qed.

(** *** The encoder *)

Lemma utf8_step_ascii (st : utf8_state) (c : ascii) :
  Nat.ltb (nat_of_ascii c) 128 = true ->
  utf8_step st c = match st with U_start => Some U_start | _ => None end.
Proof.
  intros H. unfold utf8_step, between.
  destruct st; [now rewrite H | ..];
    apply Nat.ltb_lt in H;
    match goal with
    | |- context [Nat.leb ?lo (nat_of_ascii c)] =>
        rewrite (proj2 (Nat.leb_gt lo (nat_of_ascii c))) by lia
    end; reflexivity.
Qed.

Lemma utf8_run_app (s t : string) :
  forall st,
    utf8_run st (s ++ t)
    = match utf8_run st s with
      | Some st' => utf8_run st' t
      | None => None
      end.
Proof.
  induction s as [|c s IH]; intros st; [reflexivity|].
  cbn [append utf8_run]. destruct (utf8_step st c); [apply IH | reflexivity].
Qed.

Lemma utf8_run_ascii2 (a b : ascii) (s : string) (st : utf8_state) :
  Nat.ltb (nat_of_ascii a) 128 = true ->
  Nat.ltb (nat_of_ascii b) 128 = true ->
  utf8_run st (String a (String b s))
  = match st with U_start => utf8_run U_start s | _ => None end.
Proof.
  intros A B. cbn [utf8_run]. rewrite (utf8_step_ascii st a A).
  destruct st; try reflexivity. now rewrite (utf8_step_ascii U_start b B).
Qed.

Lemma utf8_run_ascii1 (a : ascii) (s : string) (st : utf8_state) :
  Nat.ltb (nat_of_ascii a) 128 = true ->
  utf8_run st (String a s)
  = match st with U_start => utf8_run U_start s | _ => None end.
Proof.
  intros A. cbn [utf8_run]. rewrite (utf8_step_ascii st a A).
  now destruct st.
Qed.

(** Escaping changes nothing for the encoder. *)
Lemma utf8_run_escape_each (s : string) :
  forall st, utf8_run st (escape_each s) = utf8_run st s.
Proof.
  induction s as [|c s IH]; intros st; [reflexivity|].
  cbn [escape_each].
  destruct (special_cases c) as [-> | [-> | [-> | H]]].
  - change (escape_char backslash) with (str2 backslash backslash).
    cbn [str2 append].
    rewrite utf8_run_ascii2, utf8_run_ascii1 by reflexivity.
    destruct st; try reflexivity. apply IH.
  - change (escape_char dquote) with (str2 backslash dquote).
    cbn [str2 append].
    rewrite utf8_run_ascii2, utf8_run_ascii1 by reflexivity.
    destruct st; try reflexivity. apply IH.
  - change (escape_char newline) with (str2 backslash "n"%char).
    cbn [str2 append].
    rewrite utf8_run_ascii2, utf8_run_ascii1 by reflexivity.
    destruct st; try reflexivity. apply IH.
  - rewrite (escape_char_plain c H). cbn [str1 append utf8_run].
    destruct (utf8_step st c); [apply IH | reflexivity].
Qed.

Lemma encodable_escape_content (s : string) :
  encodable (escape_content s) = encodable s.
Proof.
  unfold encodable. now rewrite escape_content_each, utf8_run_escape_each.
Qed.

Lemma encodable_run (s : string) :
  encodable s = true -> utf8_run U_start s = Some U_start.
Proof.
  unfold encodable. destruct (utf8_run U_start s) as [[]|]; now intros.
Qed.

Lemma encodable_app (s t : string) :
  encodable s = true -> encodable (s ++ t) = encodable t.
Proof.
  intros H. unfold encodable. now rewrite utf8_run_app, (encodable_run s H).
Qed.

(** A text that the encoder refuses, followed by a quote, is refused
    whatever comes before and after, when what comes before is encodable. *)
Lemma not_encodable_quoted (before s after : string) :
  encodable before = true ->
  encodable s = false ->
  encodable (before ++ s ++ String dquote after) = false.
Proof.
  intros B H. rewrite (encodable_app _ _ B).
  unfold encodable in *. rewrite utf8_run_app.
  destruct (utf8_run U_start s) as [st|]; [|reflexivity].
  rewrite utf8_run_ascii1 by reflexivity.
  destruct st; try reflexivity. discriminate H.
Qed.

Lemma arm_line_nl_shape (fname content : string) :
  arm_line fname content ++ nl
  = ("    " ++ str1 dquote)
      ++ fname ++ String dquote
           ((" => return " ++ str1 dquote) ++ content ++ str2 dquote newline).
Proof.
  unfold arm_line. rewrite !app_assoc_string. reflexivity.
Qed.

Lemma encodable_arm_line (fname text : string) :
  encodable fname = true ->
  encodable text = true ->
  encodable (arm_line fname (escape_content text) ++ nl) = true.
Proof.
  intros F T. rewrite arm_line_nl_shape.
  rewrite encodable_app by reflexivity.
  rewrite (encodable_app _ _ F).
  change (String dquote ?x) with (str1 dquote ++ x).
  rewrite encodable_app by reflexivity.
  rewrite encodable_app by reflexivity.
  rewrite encodable_app by now rewrite encodable_escape_content.
  reflexivity.
Qed.

Lemma not_encodable_arm_line (fname content : string) :
  encodable fname = false ->
  encodable (arm_line fname content ++ nl) = false.
Proof.
  intros F. rewrite arm_line_nl_shape.
  now apply not_encodable_quoted.
Qed.

(** *** The writing phase *)

Lemma write_outcome_app (l1 l2 : list string) :
  write_outcome (l1 ++ l2)
  = match write_outcome l1 with
    | Ok _ => write_outcome l2
    | Raise e => Raise e
    end.
Proof.
  induction l1 as [|t l1 IH]; [reflexivity|].
  cbn [List.app write_outcome]. now destruct (encodable t).
Qed.

Lemma written_app (out : string) (l1 l2 : list string) :
  forall w,
    written out (l1 ++ l2) w
    = match write_outcome l1 with
      | Ok _ => written out l2 (written out l1 w)
      | Raise _ => written out l1 w
      end.
Proof.
  induction l1 as [|t l1 IH]; intros w; [reflexivity|].
  cbn [List.app written write_outcome]. destruct (encodable t); [apply IH | reflexivity].
Qed.

Lemma accepted_app (l1 l2 : list string) :
  accepted (l1 ++ l2)
  = match write_outcome l1 with
    | Ok _ => (l1 ++ accepted l2)%list
    | Raise _ => accepted l1
    end.
Proof.
  induction l1 as [|t l1 IH]; [reflexivity|].
  cbn [List.app accepted write_outcome].
  destruct (encodable t); [|reflexivity].
  rewrite IH. now destruct (write_outcome l1).
Qed.

Lemma accepted_all (texts : list string) :
  forallb encodable texts = true ->
  accepted texts = texts /\ write_outcome texts = Ok tt.
Proof.
  induction texts as [|t texts IH]; [now split|].
  cbn [forallb accepted write_outcome]. intros H.
  apply andb_true_iff in H as [Ht Hs]. rewrite Ht.
  destruct (IH Hs) as [A B]. now rewrite A, B.
Qed.

Lemma write_single (out s : string) (w : world) :
  write out s w = (write_outcome [s], written out [s] w).
Proof.
  cbn [write_outcome written]. unfold write. now destruct (encodable s).
Qed.

(** Two runs of writes in sequence are the run of the two lists. *)
Lemma bind_writes (out : string) (c k : M unit) (l1 l2 : list string) :
  (forall w, c w = (write_outcome l1, written out l1 w)) ->
  (forall w, k w = (write_outcome l2, written out l2 w)) ->
  forall w, bind c (fun _ => k) w
            = (write_outcome (l1 ++ l2), written out (l1 ++ l2) w).
Proof.
  intros C K w. unfold bind. rewrite C, write_outcome_app, written_app.
  destruct (write_outcome l1) as [[]|e]; [apply K | reflexivity].
Qed.

Lemma write_loop (out : string) (lines : list string) (w : world) :
  for_each lines (fun line _ => write out (line ++ nl)) tt w
  = (write_outcome (map (fun line => line ++ nl) lines),
     written out (map (fun line => line ++ nl) lines) w).
Proof.
  revert w. induction lines as [|l lines IH]; intros w; [reflexivity|].
  cbn [for_each map]. unfold bind. rewrite write_single.
  cbn [write_outcome written]. destruct (encodable (l ++ nl)); [apply IH | reflexivity].
Qed.

(** The second phase on an output path that can be opened. *)
Lemma write_output_run (entries : list string) (w : world) :
  output_openable (files w) = true ->
  write_output entries w
  = (write_outcome (written_lines entries),
     written OUTPUT_FILE (written_lines entries)
       (World (update (files w) OUTPUT_FILE (File (Some EmptyString)))
              (log w ++ [EOpenWrite OUTPUT_FILE]))).
Proof.
  intros O. unfold write_output. unfold bind at 1. unfold open_write.
  assert (K : forall w0,
             (write OUTPUT_FILE (HEADER ++ nl) ;;
              write OUTPUT_FILE (MATCH_OPEN ++ nl) ;;
              for_each entries (fun line _ => write OUTPUT_FILE (line ++ nl)) tt ;;
              write OUTPUT_FILE (FALLBACK ++ nl) ;;
              write OUTPUT_FILE (MATCH_CLOSE ++ nl) ;;
              write OUTPUT_FILE (FN_CLOSE ++ nl)) w0
             = (write_outcome (written_lines entries),
                written OUTPUT_FILE (written_lines entries) w0)).
  { apply (bind_writes OUTPUT_FILE _ _ [HEADER ++ nl]); [intros; apply write_single|].
    apply (bind_writes OUTPUT_FILE _ _ [MATCH_OPEN ++ nl]); [intros; apply write_single|].
    apply (bind_writes OUTPUT_FILE _ _ (map (fun line => line ++ nl) entries));
      [intros; apply write_loop|].
    apply (bind_writes OUTPUT_FILE _ _ [FALLBACK ++ nl]); [intros; apply write_single|].
    apply (bind_writes OUTPUT_FILE _ _ [MATCH_CLOSE ++ nl] [FN_CLOSE ++ nl]);
      intros; apply write_single. }
  unfold output_openable in O.
  destruct (files w OUTPUT_FILE) as [[t|ns]|]; [apply K | discriminate O | apply K].
Qed.

Lemma write_output_directory (entries : list string) (w : world) (ns : list string) :
  files w OUTPUT_FILE = Some (Dir ns) ->
  write_output entries w
  = (Raise (IsADirectoryError OUTPUT_FILE), emit (EOpenWrite OUTPUT_FILE) w).
Proof.
  intros D. unfold write_output. unfold bind at 1. unfold open_write. now rewrite D.
Qed.

Lemma written_log (out : string) (texts : list string) (w : world) :
  log (written out texts w) = (log w ++ map (EWrite out) (accepted texts))%list.
Proof.
  revert w. induction texts as [|t texts IH]; intros w; cbn [written accepted].
  - cbn. now rewrite app_nil_r.
  - unfold write. destruct (encodable t); cbn [snd map].
    + rewrite IH. cbn [log]. now rewrite <- app_assoc.
    + now rewrite app_nil_r.
Qed.

Lemma written_files (out : string) (texts : list string) :
  forall (w : world) (t : string),
    files w out = Some (File (Some t)) ->
    files (written out texts w) out
    = Some (File (Some (t ++ concat_all (accepted texts)))).
Proof.
  induction texts as [|x texts IH]; intros w t H; cbn [written accepted].
  - cbn [concat_all]. now rewrite app_nil_r_string.
  - unfold write. destruct (encodable x); cbn [snd concat_all].
    + rewrite (IH _ (t ++ x)).
      * now rewrite app_assoc_string.
      * cbn [files]. unfold update, text_at. now rewrite String.eqb_refl, H.
    + now rewrite app_nil_r_string.
Qed.

Lemma written_other (out : string) (texts : list string) (q : string) :
  String.eqb q out = false ->
  forall w, files (written out texts w) q = files w q.
Proof.
  intros Q. induction texts as [|x texts IH]; intros w; cbn [written]; [reflexivity|].
  unfold write. destruct (encodable x); cbn [snd]; [|reflexivity].
  rewrite IH. cbn [files]. unfold update. now rewrite Q.
Qed.

Lemma concat_all_lines (entries : list string) (rest : list string) :
  concat_all (map (fun line => line ++ nl) entries ++ rest)
  = join_lines entries ++ concat_all rest.
Proof.
  induction entries as [|l entries IH]; [reflexivity|].
  cbn [map List.app concat_all join_lines].
  now rewrite IH, !app_assoc_string.
Qed.

Lemma concat_all_written_lines (entries : list string) :
  concat_all (written_lines entries) = program_text entries.
Proof.
  unfold written_lines, program_text. cbn [concat_all].
  rewrite concat_all_lines. cbn [concat_all].
  now rewrite !app_assoc_string, app_nil_r_string.
Qed.

(** The file system after the writing phase. *)
Lemma write_output_files (entries : list string) (w : world) :
  same_files
    (files (written OUTPUT_FILE (written_lines entries)
              (World (update (files w) OUTPUT_FILE (File (Some EmptyString)))
                     (log w ++ [EOpenWrite OUTPUT_FILE]))))
    (update (files w) OUTPUT_FILE
       (File (Some (concat_all (accepted (written_lines entries)))))).
Proof.
  intros q. unfold update at 2. destruct (String.eqb q OUTPUT_FILE) eqn:Q.
  - apply String.eqb_eq in Q. subst q.
    rewrite (written_files _ _ _ EmptyString); [reflexivity|].
    cbn [files]. unfold update. now rewrite String.eqb_refl.
  - rewrite (written_other _ _ _ Q). cbn [files].
    unfold update. now rewrite Q.
Qed.

Lemma lines_encodable (ts : list (string * string)) :
  encodable_templates ts = true ->
  forallb encodable (written_lines (entries_of ts)) = true.
Proof.
  intros H. unfold written_lines. cbn [forallb].
  replace (encodable (HEADER ++ nl)) with true by reflexivity.
  replace (encodable (MATCH_OPEN ++ nl)) with true by reflexivity.
  cbn [andb]. rewrite forallb_app. apply andb_true_iff. split; [|reflexivity].
  induction ts as [|[f t] ts IH]; [reflexivity|].
  unfold encodable_templates in H. cbn [forallb fst snd] in H.
  apply andb_true_iff in H as [Hft Hs]. apply andb_true_iff in Hft as [Hf Ht].
  unfold entries_of. cbn [map forallb fst snd].
  rewrite (encodable_arm_line f t Hf Ht). exact (IH Hs).
Qed.

(** *** The cases of a run *)

Lemma main_missing (w : world) :
  files w TEMPLATE_DIR = None ->
  main w = (Ok tt, World (files w) (log w ++ [EPrint (missing_line TEMPLATE_DIR)])).
Proof.
  intros H. unfold main, bind, path_exists. now rewrite H.
Qed.

Lemma main_not_a_directory (w : world) (t : option string) :
  files w TEMPLATE_DIR = Some (File t) ->
  main w = (Raise (NotADirectoryError TEMPLATE_DIR),
            World (files w) (log w ++ [EListdir TEMPLATE_DIR])).
Proof.
  intros H. unfold main, bind, path_exists, listdir. rewrite H.
  cbn [negb]. cbv beta. now rewrite H.
Qed.

Lemma main_read_failure (w : world) (names : list string) (e : exn) :
  files w TEMPLATE_DIR = Some (Dir names) ->
  read_all (files w) (matched names) = Raise e ->
  exists ps,
    main w = (Raise e, World (files w)
                         (log w ++ EListdir TEMPLATE_DIR :: map EOpenRead ps)) /\
    incl ps (map (path_join TEMPLATE_DIR) (matched names)).
Proof.
  intros H R.
  pose proof (collect_loop names [] (emit (EListdir TEMPLATE_DIR) w)) as L.
  cbn [emit files log] in L. rewrite R in L. destruct L as (ps & L & I).
  exists ps. split; [|exact I].
  unfold main, bind, path_exists, listdir. rewrite H. cbn [negb]. cbv beta.
  rewrite H. unfold emit in L |- *. rewrite L. now rewrite <- app_assoc.
Qed.

Lemma collect_loop_trace (names : list string) :
  forall (acc : list string) (w : world),
    snd (for_each names collect_entry acc w)
    = World (files w)
            (log w ++ map EOpenRead (attempted (files w) (matched names))).
Proof.
  induction names as [|fname names IH]; intros acc w.
  - cbn. apply world_eta.
  - cbn [for_each matched filter]. fold (matched names).
    assert (STEP := collect_entry_run fname acc w). cbv zeta in STEP.
    destruct (endswith fname ".html") eqn:E.
    + cbn [attempted map].
      destruct (read_result (files w) (path_join TEMPLATE_DIR fname)) as [t|e] eqn:F.
      * unfold bind. rewrite STEP.
        rewrite (surjective_pairing (for_each names collect_entry _ _)).
        rewrite IH. cbn [emit files log].
        destruct (fst (for_each names collect_entry _ _));
          cbn [snd]; now rewrite <- app_assoc.
      * unfold bind. now rewrite STEP.
    + unfold bind. rewrite STEP.
      rewrite (surjective_pairing (for_each names collect_entry acc w)).
      rewrite IH. now destruct (fst (for_each names collect_entry acc w)).
Qed.

Lemma main_failure_trace (w : world) (names : list string) (e : exn) :
  files w TEMPLATE_DIR = Some (Dir names) ->
  read_all (files w) (matched names) = Raise e ->
  main w = (Raise e,
            World (files w)
                  (log w ++ EListdir TEMPLATE_DIR
                     :: map EOpenRead (attempted (files w) (matched names)))).
Proof.
  intros D R.
  pose proof (collect_loop names [] (emit (EListdir TEMPLATE_DIR) w)) as L.
  cbn [emit files log] in L. rewrite R in L. destruct L as (ps & L & _).
  pose proof (collect_loop_trace names [] (emit (EListdir TEMPLATE_DIR) w)) as T.
  unfold emit in L, T. rewrite L in T. cbn [snd files log] in T.
  unfold main, bind, path_exists, listdir. rewrite D. cbn [negb]. cbv beta.
  rewrite D. unfold emit. rewrite L, T. now rewrite <- app_assoc.
Qed.

(** The run up to the second phase, when every matched file is read. *)
Lemma main_reaches_output (w : world) (names : list string) (ts : list (string * string)) :
  files w TEMPLATE_DIR = Some (Dir names) ->
  read_all (files w) (matched names) = Ok ts ->
  main w
  = (write_output (entries_of ts) ;;
     print (success_line OUTPUT_FILE (List.length (entries_of ts))))
      (World (files w) (log w ++ EListdir TEMPLATE_DIR :: read_events ts)).
Proof.
  intros H R.
  pose proof (collect_loop names [] (emit (EListdir TEMPLATE_DIR) w)) as L.
  cbn [emit files log] in L. rewrite R in L. cbn [List.app] in L.
  unfold main. unfold bind at 1. unfold path_exists. rewrite H. cbn [negb].
  unfold bind at 1. unfold listdir. rewrite H.
  unfold bind at 1. unfold emit in L |- *. rewrite L.
  now rewrite <- app_assoc.
Qed.

Lemma main_output_directory (w : world) (names ns : list string)
      (ts : list (string * string)) :
  files w TEMPLATE_DIR = Some (Dir names) ->
  read_all (files w) (matched names) = Ok ts ->
  files w OUTPUT_FILE = Some (Dir ns) ->
  main w = (Raise (IsADirectoryError OUTPUT_FILE),
            World (files w)
                  (log w ++ EListdir TEMPLATE_DIR
                     :: read_events ts ++ [EOpenWrite OUTPUT_FILE])).
Proof.
  intros H R D. rewrite (main_reaches_output w names ts H R).
  unfold bind. rewrite (write_output_directory _ _ ns) by exact D.
  unfold emit. cbn [files log]. now rewrite <- app_assoc.
Qed.

Lemma main_written (w : world) (names : list string) (ts : list (string * string)) :
  files w TEMPLATE_DIR = Some (Dir names) ->
  read_all (files w) (matched names) = Ok ts ->
  output_openable (files w) = true ->
  exists fs',
    main w = (write_outcome (written_lines (entries_of ts)),
              World fs' (log w ++ EListdir TEMPLATE_DIR
                           :: read_events ts ++ write_phase ts)) /\
    same_files fs' (update (files w) OUTPUT_FILE
                      (File (Some (concat_all (accepted (written_lines (entries_of ts))))))).
Proof.
  intros H R O. rewrite (main_reaches_output w names ts H R).
  unfold bind. rewrite write_output_run by exact O. cbn [files log].
  eexists. split.
  - unfold write_phase.
    destruct (write_outcome (written_lines (entries_of ts))) as [[]|e].
    + unfold print, emit. rewrite written_log. cbn [log files].
      unfold entries_of at 3. rewrite length_map.
      f_equal. f_equal. rewrite <- !app_assoc. cbn [List.app]. reflexivity.
    + f_equal. rewrite (world_eta (written _ _ _)) at 1.
      rewrite written_log. cbn [log]. f_equal.
      rewrite !app_nil_r, <- !app_assoc. cbn [List.app]. reflexivity.
  - apply (write_output_files (entries_of ts)
             (World (files w) (log w ++ EListdir TEMPLATE_DIR :: read_events ts))).
Qed.

(** Every run is its outcome, its file system and its events. *)
Lemma main_denotation (w : world) :
  exists fs',
    main w = (main_result (files w), World fs' (log w ++ main_trace (files w))) /\
    same_files fs' (main_files (files w)).
Proof.
  unfold main_result, main_files, generated, main_trace.
  destruct (files w TEMPLATE_DIR) as [[t|names]|] eqn:D.
  - exists (files w). rewrite (main_not_a_directory w t D). now split.
  - destruct (read_all (files w) (matched names)) as [ts|e] eqn:R.
    + destruct (output_openable (files w)) eqn:O.
      * exact (main_written w names ts D R O).
      * unfold output_openable in O.
        destruct (files w OUTPUT_FILE) as [[t|ns]|] eqn:F; try discriminate O.
        exists (files w). rewrite (main_output_directory w names ns ts D R F).
        now split.
    + exists (files w). rewrite (main_failure_trace w names e D R). now split.
  - exists (files w). rewrite (main_missing w D). now split.
Qed.

Lemma main_success (w : world) (names : list string) (ts : list (string * string)) :
  files w TEMPLATE_DIR = Some (Dir names) ->
  read_all (files w) (matched names) = Ok ts ->
  output_openable (files w) = true ->
  encodable_templates ts = true ->
  exists fs',
    main w = (Ok tt, World fs' (log w ++ success_events ts)) /\
    same_files fs' (update (files w) OUTPUT_FILE
                      (File (Some (program_text (entries_of ts))))).
Proof.
  intros H R O E.
  destruct (main_written w names ts H R O) as (fs' & M & S).
  destruct (accepted_all _ (lines_encodable ts E)) as [A B].
  exists fs'. split.
  - rewrite M, B. unfold write_phase, success_events, write_events.
    now rewrite A, B.
  - now rewrite A, concat_all_written_lines in S.
Qed.

(** ** Reading the generated text back *)

Lemma split_lines_line (s t : string) :
  no_newline s = true -> split_lines (s ++ nl ++ t) = s :: split_lines t.
Proof.
  induction s as [|c s IH]; intros H.
  - reflexivity.
  - cbn in H. apply andb_true_iff in H as [Hc Hs].
    apply negb_true_iff in Hc.
    cbn [append split_lines]. now rewrite Hc, (IH Hs).
Qed.

Lemma split_lines_join (entries : list string) (rest : string) :
  forallb no_newline entries = true ->
  split_lines (join_lines entries ++ rest) = (entries ++ split_lines rest)%list.
Proof.
  induction entries as [|l entries IH]; intros H; [reflexivity|].
  cbn in H. apply andb_true_iff in H as [Hl Hs].
  cbn [join_lines]. rewrite !app_assoc_string, (split_lines_line _ _ Hl).
  now rewrite (IH Hs).
Qed.

Lemma split_lines_program (entries : list string) :
  forallb no_newline entries = true ->
  split_lines (program_text entries)
  = HEADER :: MATCH_OPEN
      :: (entries ++ [FALLBACK; MATCH_CLOSE; FN_CLOSE; EmptyString])%list.
Proof.
  intros H. unfold program_text.
  rewrite (split_lines_line HEADER) by reflexivity.
  rewrite (split_lines_line MATCH_OPEN) by reflexivity.
  rewrite (split_lines_join _ _ H).
  rewrite (split_lines_line FALLBACK) by reflexivity.
  rewrite (split_lines_line MATCH_CLOSE) by reflexivity.
  reflexivity.
Qed.

Lemma no_newline_app (s t : string) :
  no_newline (s ++ t) = no_newline s && no_newline t.
Proof.
  induction s as [|c s IH]; [reflexivity|].
  cbn. now rewrite IH, andb_assoc.
Qed.

Lemma no_newline_escape_each (s : string) : no_newline (escape_each s) = true.
Proof.
  induction s as [|c s IH]; [reflexivity|].
  cbn [escape_each]. rewrite no_newline_app, IH, andb_true_r.
  destruct (special_cases c) as [-> | [-> | [-> | H]]]; try reflexivity.
  rewrite (escape_char_plain c H). apply not_special in H as (_ & _ & H3).
  cbn. now rewrite H3.
Qed.

Lemma plain_no_newline (s : string) : plain s = true -> no_newline s = true.
Proof.
  intros H. rewrite <- (escape_each_plain s H). apply no_newline_escape_each.
Qed.

Lemma strip_prefix_app (p s : string) : strip_prefix p (p ++ s) = Some s.
Proof.
  induction p as [|a p IH]; cbn; [now destruct s|].
  now rewrite Ascii.eqb_refl.
Qed.

(** Lexing an escaped text up to its closing quote gives the text back. *)
Lemma lex_literal_escape_each (s rest : string) :
  lex_literal (escape_each s ++ String dquote rest) = Some (s, rest).
Proof.
  induction s as [|c s IH]; [reflexivity|].
  cbn [escape_each]. rewrite app_assoc_string.
  destruct (special_cases c) as [-> | [-> | [-> | H]]];
    try (cbn; cbn in IH; now rewrite IH).
  rewrite (escape_char_plain c H). apply not_special in H as (H1 & H2 & H3).
  cbn [str1 append lex_literal]. now rewrite H1, H2, H3, IH.
Qed.

Lemma lex_literal_plain (s rest : string) :
  plain s = true -> lex_literal (s ++ String dquote rest) = Some (s, rest).
Proof.
  intros H. rewrite <- (escape_each_plain s H) at 1. apply lex_literal_escape_each.
Qed.

Lemma arm_line_shape (fname content : string) :
  arm_line fname content
  = ("    " ++ str1 dquote)
      ++ (fname ++ String dquote
            ((" => return " ++ str1 dquote) ++ (content ++ String dquote EmptyString))).
Proof. reflexivity. Qed.

(** An entry whose file name is plain reads back as its name and text. *)
Lemma parse_arm_entry (fname text : string) :
  plain fname = true ->
  parse_arm (arm_line fname (escape_content text)) = Some (fname, text).
Proof.
  intros H. unfold parse_arm.
  rewrite arm_line_shape, strip_prefix_app, (lex_literal_plain _ _ H).
  rewrite strip_prefix_app, escape_content_each, lex_literal_escape_each.
  reflexivity.
Qed.

Lemma arm_line_not_fallback (fname content : string) :
  String.eqb (arm_line fname content) FALLBACK = false.
Proof. reflexivity. Qed.

Lemma no_newline_arm_line (fname text : string) :
  plain fname = true -> no_newline (arm_line fname (escape_content text)) = true.
Proof.
  intros H. rewrite arm_line_shape, escape_content_each.
  rewrite !no_newline_app. cbn [no_newline].
  rewrite !no_newline_app, no_newline_escape_each, (plain_no_newline _ H).
  reflexivity.
Qed.

Lemma no_newline_entries (ts : list (string * string)) :
  plain_names ts = true -> forallb no_newline (entries_of ts) = true.
Proof.
  induction ts as [|[f t] ts IH]; [reflexivity|].
  unfold plain_names, entries_of. cbn [forallb map fst snd].
  intros H. apply andb_true_iff in H as [Hf Hs].
  rewrite (no_newline_arm_line f t Hf). exact (IH Hs).
Qed.

Lemma parse_arms_entries (ts : list (string * string)) (rest : list string) :
  plain_names ts = true ->
  parse_arms (entries_of ts ++ FALLBACK :: rest) = Some (ts, rest).
Proof.
  induction ts as [|[f t] ts IH]; intros H.
  - cbn [entries_of map List.app parse_arms]. now rewrite String.eqb_refl.
  - unfold plain_names in H. cbn [forallb fst] in H.
    apply andb_true_iff in H as [Hf Hs].
    unfold entries_of. cbn [map List.app parse_arms fst snd].
    rewrite arm_line_not_fallback, (parse_arm_entry f t Hf).
    fold (entries_of ts). now rewrite (IH Hs).
Qed.

(** With plain file names, the text generated for a list of templates is a
    complete function definition whose arms are these templates, in order. *)
Lemma parse_program_text (ts : list (string * string)) :
  plain_names ts = true ->
  parse_program (program_text (entries_of ts)) = Some ts.
Proof.
  intros H. unfold parse_program.
  rewrite (split_lines_program _ (no_newline_entries ts H)).
  rewrite !String.eqb_refl. cbn [andb].
  now rewrite (parse_arms_entries ts _ H).
Qed.

Lemma eval_match_unknown (ts : list (string * string)) (name : string) :
  ~ In name (map fst ts) -> eval_match ts name = RenderError (FALLBACK_MESSAGE ++ name).
Proof.
  induction ts as [|[f t] ts IH]; intros H; [reflexivity|].
  cbn [eval_match]. cbn in H.
  destruct (String.eqb_spec f name) as [->|_]; [tauto|].
  apply IH. tauto.
Qed.

Lemma eval_match_known (ts : list (string * string)) (name text : string) :
  NoDup (map fst ts) -> In (name, text) ts -> eval_match ts name = Returned text.
Proof.
  induction ts as [|[f t] ts IH]; intros D H; [destruct H|].
  cbn [eval_match]. cbn in D. inversion D as [|? ? N D']; subst.
  destruct H as [H|H].
  - inversion H; subst. now rewrite String.eqb_refl.
  - destruct (String.eqb_spec f name) as [->|_].
    + exfalso. apply N. apply (in_map fst) in H. exact H.
    + now apply IH.
Qed.

(** ** Runs on the same sources *)

Lemma endswith_app (x t suffix : string) :
  endswith t suffix = true -> endswith (x ++ t) suffix = true.
Proof.
  intros H. induction x as [|c x IH]; [exact H|].
  cbn [append endswith]. rewrite IH. apply orb_true_r.
Qed.

Lemma endswith_path_join (a b suffix : string) :
  endswith b suffix = true -> endswith (path_join a b) suffix = true.
Proof.
  intros H. unfold path_join.
  destruct (prefix "/" b); [exact H|].
  destruct (String.eqb a EmptyString || endswith a "/").
  - now apply endswith_app.
  - apply endswith_app. now apply (endswith_app "/").
Qed.

(** The path of a matched name is not the output path. *)
Lemma path_join_not_output (fname : string) :
  endswith fname ".html" = true ->
  String.eqb (path_join TEMPLATE_DIR fname) OUTPUT_FILE = false.
Proof.
  intros H. apply String.eqb_neq. intros E.
  apply (endswith_path_join TEMPLATE_DIR) in H. rewrite E in H. discriminate H.
Qed.

Lemma matched_endswith (names : list string) (fname : string) :
  In fname (matched names) <-> In fname names /\ endswith fname ".html" = true.
Proof. exact (filter_In (fun f => endswith f ".html") fname names). Qed.

Lemma read_all_same (fs fs' : filesystem) (names : list string) :
  (forall fname, In fname names ->
     fs (path_join TEMPLATE_DIR fname) = fs' (path_join TEMPLATE_DIR fname)) ->
  read_all fs names = read_all fs' names.
Proof.
  induction names as [|n names IH]; intros H; [reflexivity|].
  cbn [read_all]. unfold read_result. rewrite (H n (in_eq _ _)).
  rewrite IH; [reflexivity|]. intros f I. apply H. now right.
Qed.

Lemma read_all_fails (fs : filesystem) (names : list string) (fname : string) (e0 : exn) :
  In fname names ->
  read_result fs (path_join TEMPLATE_DIR fname) = Raise e0 ->
  exists e, read_all fs names = Raise e.
Proof.
  induction names as [|n names IH]; intros I R; [destruct I|].
  cbn [read_all]. destruct I as [->|I].
  - rewrite R. now exists e0.
  - destruct (read_result fs (path_join TEMPLATE_DIR n)) as [t|e]; [|now exists e].
    destruct (IH I R) as (e & ->). now exists e.
Qed.

Lemma output_text_files (w w' : world) :
  files w' OUTPUT_FILE = files w OUTPUT_FILE -> output_text w' = output_text w.
Proof. unfold output_text. now intros ->. Qed.

Lemma output_text_written (fs' fs : filesystem) (l : list event) (text : string) :
  same_files fs' (update fs OUTPUT_FILE (File (Some text))) ->
  output_text (World fs' l) = Some text.
Proof. intros S. unfold output_text. cbn [files]. now rewrite S. Qed.

(** *** The outcome and the files of a run *)

Lemma main_result_run (w : world) : fst (main w) = main_result (files w).
Proof. destruct (main_denotation w) as (fs' & E & _). now rewrite E. Qed.

Lemma main_files_run (w : world) (q : string) :
  files (snd (main w)) q = main_files (files w) q.
Proof. destruct (main_denotation w) as (fs' & E & S). rewrite E. apply S. Qed.

Lemma main_trace_run (w : world) :
  log (snd (main w)) = (log w ++ main_trace (files w))%list.
Proof. destruct (main_denotation w) as (fs' & E & _). now rewrite E. Qed.

Lemma main_files_output (fs : filesystem) :
  main_files fs OUTPUT_FILE
  = match generated fs with
    | Some text => Some (File (Some text))
    | None => fs OUTPUT_FILE
    end.
Proof.
  unfold main_files. destruct (generated fs); [|reflexivity].
  unfold update. now rewrite String.eqb_refl.
Qed.

Lemma main_files_frame (fs : filesystem) (q : string) :
  q <> OUTPUT_FILE -> main_files fs q = fs q.
Proof.
  intros Q. apply String.eqb_neq in Q. unfold main_files.
  destruct (generated fs); [|reflexivity]. unfold update. now rewrite Q.
Qed.

(** A run changes nothing but the output path. *)
Lemma main_frame (w : world) (q : string) :
  q <> OUTPUT_FILE -> files (snd (main w)) q = files w q.
Proof. intros Q. rewrite main_files_run. now apply main_files_frame. Qed.

Lemma matched_path_not_output (names : list string) (fname : string) :
  In fname (matched names) -> path_join TEMPLATE_DIR fname <> OUTPUT_FILE.
Proof.
  intros I. apply matched_endswith in I as [_ I].
  apply String.eqb_neq. now apply path_join_not_output.
Qed.

(** A run does not touch its sources: the output path is neither the
    template directory nor the path of a matched name. *)
Lemma main_keeps_sources (w : world) : same_sources w (snd (main w)).
Proof.
  split.
  - symmetry. apply main_frame. discriminate.
  - intros names fname _ I. symmetry. apply main_frame.
    now apply (matched_path_not_output names).
Qed.

Lemma generated_openable (fs : filesystem) (text : string) :
  generated fs = Some text -> output_openable fs = true.
Proof.
  unfold generated. destruct (fs TEMPLATE_DIR) as [[t|names]|]; try discriminate.
  destruct (read_all fs (matched names)); [|discriminate].
  now destruct (output_openable fs).
Qed.

(** A run leaves the output path a directory exactly when it was one. *)
Lemma main_openable (w : world) :
  output_openable (files (snd (main w))) = output_openable (files w).
Proof.
  unfold output_openable at 1. rewrite main_files_run, main_files_output.
  destruct (generated (files w)) as [text|] eqn:G; [|reflexivity].
  symmetry. now apply (generated_openable _ text).
Qed.

Lemma main_result_same (w w' : world) :
  same_sources w w' ->
  output_openable (files w) = output_openable (files w') ->
  main_result (files w) = main_result (files w') /\
  generated (files w) = generated (files w').
Proof.
  intros [ST SF] O. unfold main_result, generated. rewrite <- ST, <- O.
  destruct (files w TEMPLATE_DIR) as [[t|names]|] eqn:D; try now split.
  rewrite <- (read_all_same (files w) (files w') (matched names)); [now split|].
  intros f I. now apply (SF names).
Qed.

(** The outcome of a run, and the text it leaves, depend only on the
    sources and on whether the output path is a directory. *)
Lemma main_deterministic (w w' : world) :
  same_sources w w' ->
  output_openable (files w) = output_openable (files w') ->
  fst (main w) = fst (main w') /\
  forall text, generated (files w) = Some text ->
    output_text (snd (main w)) = Some text /\
    output_text (snd (main w')) = Some text.
Proof.
  intros S O. destruct (main_result_same w w' S O) as [R G].
  rewrite !main_result_run. split; [exact R|].
  intros text T. unfold output_text.
  rewrite !main_files_run, !main_files_output, <- G, T. now split.
Qed.

(** When a run ends normally after listing the directory, it has read every
    matched file, opened the output and written every line. *)
Lemma main_ok_generated (w : world) (names : list string) :
  files w TEMPLATE_DIR = Some (Dir names) ->
  fst (main w) = Ok tt ->
  exists text, generated (files w) = Some text.
Proof.
  intros D. rewrite main_result_run. unfold main_result, generated. rewrite D.
  destruct (read_all (files w) (matched names)); [|discriminate].
  destruct (output_openable (files w)); [|discriminate].
  intros _. now eexists.
Qed.

(** ** Traces *)

Lemma printed_app (l l' : list event) : printed (l ++ l') = (printed l ++ printed l')%list.
Proof.
  induction l as [|e l IH]; [reflexivity|].
  destruct e; cbn; now rewrite IH.
Qed.

Lemma reads_then (ps : list string) (l : list event) :
  reads_before_write (map EOpenRead ps ++ l) = reads_before_write l.
Proof. induction ps as [|p ps IH]; [reflexivity | exact IH]. Qed.

Lemma no_reads_writes (out : string) (texts : list string) (l : list event) :
  no_reads (map (EWrite out) texts ++ l) = no_reads l.
Proof. induction texts as [|t texts IH]; [reflexivity | exact IH]. Qed.

Lemma no_writes_reads (ps : list string) : no_writes (map EOpenRead ps) = true.
Proof. induction ps as [|p ps IH]; [reflexivity | exact IH]. Qed.

Lemma opened_app (l l' : list event) : opened (l ++ l') = (opened l ++ opened l')%list.
Proof.
  induction l as [|e l IH]; [reflexivity|].
  destruct e; cbn; now rewrite IH.
Qed.

Lemma opened_reads (ps : list string) : opened (map EOpenRead ps) = ps.
Proof. induction ps as [|p ps IH]; [reflexivity | cbn; now rewrite IH]. Qed.

Lemma opened_writes (out : string) (texts : list string) :
  opened (map (EWrite out) texts) = [].
Proof. induction texts as [|t texts IH]; [reflexivity | exact IH]. Qed.

Lemma read_events_paths (ts : list (string * string)) :
  read_events ts = map EOpenRead (map (path_join TEMPLATE_DIR) (map fst ts)).
Proof. unfold read_events. now rewrite !map_map. Qed.

Lemma printed_reads (ps : list string) : printed (map EOpenRead ps) = [].
Proof. induction ps as [|p ps IH]; [reflexivity | exact IH]. Qed.

Lemma printed_writes (out : string) (texts : list string) :
  printed (map (EWrite out) texts) = [].
Proof. induction texts as [|t texts IH]; [reflexivity | exact IH]. Qed.

Lemma write_phase_no_read (ts : list (string * string)) :
  no_reads (List.tl (write_phase ts)) = true /\ opened (write_phase ts) = [].
Proof.
  unfold write_phase. cbn [List.tl opened].
  rewrite no_reads_writes, opened_app, opened_writes.
  now destruct (write_outcome (written_lines (entries_of ts))).
Qed.

Lemma attempted_incl (fs : filesystem) (names : list string) :
  incl (attempted fs names) (map (path_join TEMPLATE_DIR) names).
Proof.
  induction names as [|n names IH]; [intros p []|].
  cbn [attempted map]. intros p [<-|P]; [now left|]. right.
  destruct (read_result fs (path_join TEMPLATE_DIR n)); [now apply IH | destruct P].
Qed.

(** No read follows the opening of the output. *)
Lemma main_trace_reads_first (fs : filesystem) :
  reads_before_write (main_trace fs) = true.
Proof.
  unfold main_trace. destruct (fs TEMPLATE_DIR) as [[t|names]|]; try reflexivity.
  cbn [reads_before_write].
  destruct (read_all fs (matched names)) as [ts|e].
  - rewrite read_events_paths, reads_then.
    destruct (output_openable fs); [|reflexivity].
    destruct (write_phase_no_read ts) as [N _]. exact N.
  - rewrite <- (app_nil_r (map EOpenRead _)). now rewrite reads_then.
Qed.

(** Only paths of matched names are opened for reading. *)
Lemma main_trace_opened (fs : filesystem) (p : string) :
  In p (opened (main_trace fs)) ->
  exists names, fs TEMPLATE_DIR = Some (Dir names) /\
                In p (map (path_join TEMPLATE_DIR) (matched names)).
Proof.
  unfold main_trace. destruct (fs TEMPLATE_DIR) as [[t|names]|]; try (intros []).
  cbn [opened]. intros I. exists names. split; [reflexivity|].
  destruct (read_all fs (matched names)) as [ts|e] eqn:R.
  - rewrite opened_app, read_events_paths, opened_reads in I.
    rewrite (read_all_names _ _ _ R) in I.
    apply in_app_or in I as [I|I]; [exact I|].
    destruct (output_openable fs); [|destruct I].
    destruct (write_phase_no_read ts) as [_ N]. rewrite N in I. destruct I.
  - rewrite opened_reads in I. now apply (attempted_incl fs).
Qed.

(** The events of any run: no read follows the opening of the output, and
    only paths of matched names are read. *)
Lemma main_events (w : world) :
  exists evs,
    log (snd (main w)) = (log w ++ evs)%list /\
    reads_before_write evs = true /\
    (forall p, In p (opened evs) ->
       exists names, files w TEMPLATE_DIR = Some (Dir names) /\
                     In p (map (path_join TEMPLATE_DIR) (matched names))).
Proof.
  exists (main_trace (files w)). split; [apply main_trace_run|].
  split; [apply main_trace_reads_first | apply main_trace_opened].
Qed.

Lemma reads_before_write_success (ts : list (string * string)) :
  reads_before_write (success_events ts) = true.
Proof.
  unfold success_events, read_events, write_events.
  cbn [reads_before_write]. rewrite <- (map_map fst (fun f => EOpenRead (path_join TEMPLATE_DIR f))).
  rewrite <- (map_map (path_join TEMPLATE_DIR) EOpenRead).
  rewrite reads_then. cbn [List.app reads_before_write].
  now rewrite no_reads_writes.
Qed.

Lemma printed_success (ts : list (string * string)) :
  printed (success_events ts) = [success_line OUTPUT_FILE (List.length ts)].
Proof.
  unfold success_events, write_events. cbn [printed].
  rewrite printed_app, read_events_paths, printed_reads. cbn [List.app printed].
  now rewrite printed_app, printed_writes.
Qed.

(** A run that raises prints nothing. *)
Lemma main_trace_raise (fs : filesystem) (e : exn) :
  main_result fs = Raise e -> printed (main_trace fs) = [].
Proof.
  unfold main_result, main_trace.
  destruct (fs TEMPLATE_DIR) as [[t|names]|]; [reflexivity | | discriminate].
  cbn [printed].
  destruct (read_all fs (matched names)) as [ts|e']; [|intros _; apply printed_reads].
  rewrite printed_app, read_events_paths, printed_reads. cbn [List.app].
  destruct (output_openable fs); [|reflexivity].
  unfold write_phase. cbn [printed]. rewrite printed_app, printed_writes.
  destruct (write_outcome (written_lines (entries_of ts))); [destruct a; discriminate|].
  reflexivity.
Qed.

(** ** The generated function, for plain file names *)

(** When the output can be opened, every text is encodable and no matched
    file name holds a backslash, a quote or a newline, the
    file written is a complete function definition with one arm per matched
    file, in listing order, each matching the file name and returning the
    text of the file; a call with another name raises the error carrying
    that name, and a call with a listed name returns the text. *)
Lemma generated_function_plain_names (w : world) (names : list string)
      (ts : list (string * string)) :
  files w TEMPLATE_DIR = Some (Dir names) ->
  read_all (files w) (matched names) = Ok ts ->
  output_openable (files w) = true ->
  encodable_templates ts = true ->
  plain_names ts = true ->
  fst (main w) = Ok tt /\
  exists text,
    output_text (snd (main w)) = Some text /\
    parse_program text = Some ts /\
    map fst ts = matched names /\
    (forall name, ~ In name (matched names) ->
       load_template text name = Some (RenderError (FALLBACK_MESSAGE ++ name))) /\
    (NoDup names -> forall name t, In (name, t) ts ->
       load_template text name = Some (Returned t)).
Proof.
  intros D R O E P.
  destruct (main_success w names ts D R O E) as (fs1 & E1 & S1). rewrite E1.
  split; [reflexivity|]. exists (program_text (entries_of ts)).
  pose proof (read_all_names _ _ _ R) as N.
  split; [apply (output_text_written _ _ _ _ S1)|].
  split; [apply (parse_program_text ts P)|].
  split; [exact N|]. unfold load_template. rewrite (parse_program_text ts P).
  cbn [option_map]. split.
  - intros name I. rewrite <- N in I. now rewrite (eval_match_unknown ts name I).
  - intros ND name t I. rewrite (eval_match_known ts name t); [reflexivity | | exact I].
    rewrite N. now apply NoDup_filter.
Qed.

(** ** The claims about a run *)

(** C2: for the directory whose only file is named [a], double quote,
    [b.html] (text [x]), the run succeeds and writes the header, one entry
    and the wildcard arm; the file name is copied between the quotes as it
    is, so the entry is not an arm that matches this name and the text is not
    a function definition. *)
Theorem quoted_file_name_arm :
  fst (main quoted_world) = Ok tt /\
  output_text (snd (main quoted_world))
  = Some (program_text [arm_line quoted_name (escape_content "x")]) /\
  parse_arm (arm_line quoted_name (escape_content "x")) = None /\
  parse_program (program_text [arm_line quoted_name (escape_content "x")]) = None.
Proof. repeat split; vm_compute; reflexivity. Qed.

(** C5: for the directory whose only file is named [a], backslash,
    [nb.html] (text [x]), the generated function, called with the name that
    has a line break in place of the backslash and the [n] (a name that is
    not among the processed file names), returns [x] instead of raising the
    error; called with the name of the file itself, it raises it. *)
Theorem escaped_file_name_lookup :
  fst (main escaped_world) = Ok tt /\
  matched [escaped_name] = [escaped_name] /\
  ~ In line_break_name (matched [escaped_name]) /\
  option_map (fun text => load_template text line_break_name)
             (output_text (snd (main escaped_world)))
  = Some (Some (Returned "x")) /\
  option_map (fun text => load_template text escaped_name)
             (output_text (snd (main escaped_world)))
  = Some (Some (RenderError (FALLBACK_MESSAGE ++ escaped_name))).
Proof.
  split; [vm_compute; reflexivity|]. split; [reflexivity|].
  split; [|split; vm_compute; reflexivity].
  intros [H|[]]. discriminate H.
Qed.

(** C3: when the template directory does not exist, [main] returns
    normally (it does not raise), leaves every file as it is, so the output
    file is neither created nor modified, and prints the line saying that
    the folder was not found. *)
Theorem main_missing_directory (w : world) :
  files w TEMPLATE_DIR = None ->
  fst (main w) = Ok tt /\
  files (snd (main w)) = files w /\
  output_text (snd (main w)) = output_text w /\
  log (snd (main w)) = (log w ++ [EPrint " Folder 'src/templates' not found."])%list.
Proof.
  intros D. rewrite (main_missing w D). now repeat split.
Qed.

Lemma main_missing_directory_empty_world :
  files empty_world TEMPLATE_DIR = None /\
  fst (main empty_world) = Ok tt /\
  files (snd (main empty_world)) = files empty_world /\
  output_text (snd (main empty_world)) = output_text empty_world /\
  log (snd (main empty_world)) = [EPrint " Folder 'src/templates' not found."].
Proof.
  split; [reflexivity|]. apply (main_missing_directory empty_world). reflexivity.
Defined.




(** C7: a second run, started where the first one ended, has the same
    outcome and leaves the same output text as the first; more generally two
    runs on worlds with the same sources, whose output paths are both
    directories or both not, have the same outcome and, when they write the
    output, write the same text. *)
Theorem main_twice_same_output :
  (forall w,
     fst (main (snd (main w))) = fst (main w) /\
     output_text (snd (main (snd (main w)))) = output_text (snd (main w))) /\
  (forall w w',
     same_sources w w' ->
     output_openable (files w) = output_openable (files w') ->
     fst (main w) = fst (main w') /\
     forall names, files w TEMPLATE_DIR = Some (Dir names) -> fst (main w) = Ok tt ->
       output_text (snd (main w)) = output_text (snd (main w'))).
Proof.
  split.
  - intros w.
    pose proof (main_keeps_sources w) as S.
    pose proof (main_openable w) as O. symmetry in O.
    destruct (main_result_same w (snd (main w)) S O) as [R G].
    split; [rewrite !main_result_run; now symmetry|].
    unfold output_text.
    rewrite (main_files_run (snd (main w))), main_files_output, <- G.
    destruct (generated (files w)) as [text|] eqn:T; [|reflexivity].
    now rewrite main_files_run, main_files_output, T.
  - intros w w' S O. destruct (main_deterministic w w' S O) as [F T].
    split; [exact F|]. intros names D K.
    destruct (main_ok_generated w names D K) as (text & G).
    destruct (T text G) as [A B]. now rewrite A, B.
Qed.

Lemma main_twice_same_output_html_world :
  (fst (main (snd (main html_world))) = fst (main html_world) /\
   output_text (snd (main (snd (main html_world)))) = output_text (snd (main html_world))) /\
  (same_sources html_world (snd (main html_world)) /\
   output_openable (files html_world) = output_openable (files (snd (main html_world))) /\
   files html_world TEMPLATE_DIR = Some (Dir ["a.html"; "notes.txt"]) /\
   fst (main html_world) = Ok tt /\
   output_text (snd (main html_world)) = output_text (snd (main (snd (main html_world))))).
Proof.
  destruct main_twice_same_output as [A B].
  split; [apply A|].
  pose proof (main_keeps_sources html_world) as S.
  assert (O : output_openable (files html_world)
              = output_openable (files (snd (main html_world))))
    by (symmetry; apply main_openable).
  split; [exact S|]. split; [exact O|]. split; [reflexivity|].
  assert (R : fst (main html_world) = Ok tt) by (vm_compute; reflexivity).
  split; [exact R|].
  apply (proj2 (B html_world (snd (main html_world)) S O) ["a.html"; "notes.txt"]);
    [reflexivity | exact R].
Defined.

(** C9, as amended: when the template directory exists, no name of its
    listing ends with [.html] and the output path can be opened, the run
    ends normally, the output file holds exactly the header, the opening of
    the match, the wildcard arm and the two closing lines (a function with
    no other arm), and the line printed reports 0 templates. *)
Theorem main_no_matching_file (w : world) (names : list string) :
  files w TEMPLATE_DIR = Some (Dir names) ->
  matched names = [] ->
  output_openable (files w) = true ->
  fst (main w) = Ok tt /\
  output_text (snd (main w)) = Some EMPTY_PROGRAM /\
  parse_program EMPTY_PROGRAM = Some [] /\
  printed (log (snd (main w)))
  = (printed (log w) ++ [" Generated src/template.mbt with 0 templates."])%list.
Proof.
  intros D N O.
  assert (R : read_all (files w) (matched names) = Ok []) by now rewrite N.
  destruct (main_success w names [] D R O eq_refl) as (fs1 & E1 & S1). rewrite E1.
  split; [reflexivity|].
  split; [apply (output_text_written _ _ _ _ S1)|].
  split; [reflexivity|].
  cbn [snd log]. now rewrite printed_app.
Qed.

Lemma main_no_matching_file_notes_world :
  files notes_world TEMPLATE_DIR = Some (Dir ["notes.txt"]) /\
  matched ["notes.txt"] = [] /\
  output_openable (files notes_world) = true /\
  fst (main notes_world) = Ok tt /\
  output_text (snd (main notes_world)) = Some EMPTY_PROGRAM /\
  parse_program EMPTY_PROGRAM = Some [] /\
  printed (log (snd (main notes_world)))
  = [" Generated src/template.mbt with 0 templates."].
Proof.
  split; [reflexivity|]. split; [reflexivity|]. split; [reflexivity|].
  apply (main_no_matching_file notes_world ["notes.txt"]); reflexivity.
Defined.

(** C9, as stated, fails: with a template directory that holds no [.html]
    file and a directory at the output path, the run raises
    [IsADirectoryError], writes no output file and prints nothing. *)
Lemma main_no_matching_file_output_directory :
  (files (output_directory notes_world) TEMPLATE_DIR = Some (Dir ["notes.txt"]) /\
   matched ["notes.txt"] = [] /\
   fst (main (output_directory notes_world)) = Raise (IsADirectoryError OUTPUT_FILE) /\
   output_text (snd (main (output_directory notes_world))) = None /\
   printed (log (snd (main (output_directory notes_world)))) = []) /\
  ~ (forall w names,
       files w TEMPLATE_DIR = Some (Dir names) ->
       matched names = [] ->
       fst (main w) = Ok tt).
Proof.
  split; [repeat split; vm_compute; reflexivity|].
  intros H.
  specialize (H (output_directory notes_world) ["notes.txt"] eq_refl eq_refl).
  vm_compute in H. discriminate H.
Qed.

(** C10: in every run, no template is opened for reading once the output
    file has been opened for writing; and when the read of a matched file
    raises, the run ends with an exception, every file (the output file
    among them) is as it was before the run, and nothing was written. *)
Theorem reads_precede_output_write :
  (forall w, exists evs,
     log (snd (main w)) = (log w ++ evs)%list /\ reads_before_write evs = true) /\
  (forall w names fname e0,
     files w TEMPLATE_DIR = Some (Dir names) ->
     In fname (matched names) ->
     read_result (files w) (path_join TEMPLATE_DIR fname) = Raise e0 ->
     (exists e, fst (main w) = Raise e) /\
     files (snd (main w)) = files w /\
     output_text (snd (main w)) = output_text w /\
     exists evs, log (snd (main w)) = (log w ++ evs)%list /\ no_writes evs = true).
Proof.
  split.
  - intros w. destruct (main_events w) as (evs & L & B & _). now exists evs.
  - intros w names fname e0 D I F.
    destruct (read_all_fails _ _ _ _ I F) as (e & R).
    destruct (main_read_failure w names e D R) as (ps & E & _). rewrite E.
    split; [now exists e|]. split; [reflexivity|]. split; [reflexivity|].
    eexists. split; [reflexivity|]. cbn [no_writes]. apply no_writes_reads.
Qed.

Lemma reads_precede_output_write_unreadable_world :
  (exists evs, log (snd (main unreadable_world)) = evs /\ reads_before_write evs = true) /\
  files unreadable_world TEMPLATE_DIR = Some (Dir ["a.html"]) /\
  In "a.html" (matched ["a.html"]) /\
  read_result (files unreadable_world) (path_join TEMPLATE_DIR "a.html")
  = Raise (ReadError "src/templates/a.html") /\
  (exists e, fst (main unreadable_world) = Raise e) /\
  output_text (snd (main unreadable_world)) = Some "old".
Proof.
  destruct reads_precede_output_write as [A B].
  split; [exact (A unreadable_world)|].
  split; [reflexivity|]. split; [now left|]. split; [reflexivity|].
  destruct (B unreadable_world ["a.html"] "a.html" (ReadError "src/templates/a.html"))
    as (X & _ & O & _); [reflexivity | now left | reflexivity |].
  split; [exact X | exact O].
Defined.

(** * Further properties of the script *)

(** ** [escape_content] *)

Lemma escape_char_length (c : ascii) :
  String.length (escape_char c) = (if special c then 2 else 1).
Proof.
  destruct (special_cases c) as [-> | [-> | [-> | H]]]; try reflexivity.
  now rewrite (escape_char_plain c H), H.
Qed.

Lemma escape_each_length (s : string) :
  String.length (escape_each s) = String.length s + count_special s.
Proof.
  induction s as [|c s IH]; [reflexivity|].
  cbn [escape_each count_special String.length].
  rewrite length_app_string, escape_char_length, IH.
  destruct (special c); lia.
Qed.

Lemma count_special_bound (s : string) : count_special s <= String.length s.
Proof.
  induction s as [|c s IH]; [apply le_n|].
  cbn [count_special String.length]. destruct (special c); lia.
Qed.

Lemma count_special_plain (s : string) : count_special s = 0 <-> plain s = true.
Proof.
  induction s as [|c s IH]; [now split|].
  cbn [count_special plain]. destruct (special c); cbn [negb andb].
  - split; [lia | discriminate].
  - exact IH.
Qed.

(** X1: an escaped text followed by a quote lexes as a string literal whose
    value is the text and which ends at that quote, whatever follows; and an
    escaped text holds no line break. *)
Theorem escape_content_literal_safe (s rest : string) :
  lex_literal (escape_content s ++ String dquote rest) = Some (s, rest) /\
  no_newline (escape_content s) = true.
Proof.
  rewrite escape_content_each. split.
  - apply lex_literal_escape_each.
  - apply no_newline_escape_each.
Qed.

(** X2: the escaped text is longer than the text by the number of
    backslashes, quotes and newlines in it; so it is never shorter and at
    most twice as long. *)
Theorem escape_content_length (s : string) :
  String.length (escape_content s) = String.length s + count_special s /\
  String.length s <= String.length (escape_content s) <= 2 * String.length s.
Proof.
  rewrite escape_content_each, escape_each_length.
  pose proof (count_special_bound s). lia.
Qed.

(** X3: [escape_content] leaves a text unchanged exactly when the text
    holds no backslash, no quote and no newline. *)
Theorem escape_content_fixed_point (s : string) :
  escape_content s = s <-> plain s = true.
Proof.
  rewrite escape_content_each. split.
  - intros H. apply count_special_plain.
    apply (f_equal String.length) in H. rewrite escape_each_length in H. lia.
  - apply escape_each_plain.
Qed.

Lemma escape_content_fixed_point_html :
  plain "<p>hi</p>" = true /\ escape_content "<p>hi</p>" = "<p>hi</p>".
Proof.
  split; [reflexivity|]. apply (proj2 (escape_content_fixed_point "<p>hi</p>")).
  reflexivity.
Defined.

(** ** The first loop, read by read *)

Lemma first_failure (fs : filesystem) (l1 l2 : list string) (fname : string) (e : exn) :
  forall ts1,
    read_all fs l1 = Ok ts1 ->
    read_result fs (path_join TEMPLATE_DIR fname) = Raise e ->
    read_all fs (l1 ++ fname :: l2) = Raise e /\
    attempted fs (l1 ++ fname :: l2) = map (path_join TEMPLATE_DIR) (l1 ++ [fname]).
Proof.
  induction l1 as [|n l1 IH]; intros ts1 R F.
  - cbn [List.app read_all attempted map]. now rewrite F.
  - cbn [read_all] in R. cbn [List.app read_all attempted map].
    destruct (read_result fs (path_join TEMPLATE_DIR n)) as [t|]; [|discriminate].
    destruct (read_all fs l1) as [ts|] eqn:R1; [|discriminate].
    destruct (IH ts eq_refl F) as [A B]. now rewrite A, B.
Qed.

Lemma no_newline_arm (fname text : string) :
  no_newline fname = true -> no_newline (arm_line fname (escape_content text)) = true.
Proof.
  intros H. rewrite arm_line_shape, escape_content_each.
  rewrite !no_newline_app. cbn [no_newline].
  rewrite !no_newline_app, no_newline_escape_each, H.
  reflexivity.
Qed.

Lemma no_newline_entries_of (ts : list (string * string)) :
  newline_free_names ts = true -> forallb no_newline (entries_of ts) = true.
Proof.
  induction ts as [|[f t] ts IH]; [reflexivity|].
  unfold newline_free_names, entries_of. cbn [forallb map fst snd].
  intros H. apply andb_true_iff in H as [Hf Hs].
  rewrite (no_newline_arm f t Hf). exact (IH Hs).
Qed.

(** ** Further properties of a run *)

(** X4: when the template path names a regular file, the existence test
    passes and the listing raises [NotADirectoryError]: the not-found line
    is not printed, nothing is printed at all, and no file changes. *)
Theorem main_template_path_is_file (w : world) (t : option string) :
  files w TEMPLATE_DIR = Some (File t) ->
  fst (main w) = Raise (NotADirectoryError TEMPLATE_DIR) /\
  files (snd (main w)) = files w /\
  printed (log (snd (main w))) = printed (log w).
Proof.
  intros D. rewrite (main_not_a_directory w t D). cbn [fst snd files log].
  rewrite printed_app. cbn [printed]. now rewrite app_nil_r.
Qed.

Lemma main_template_path_is_file_example :
  files file_for_directory TEMPLATE_DIR = Some (File (Some "not a directory")) /\
  fst (main file_for_directory) = Raise (NotADirectoryError TEMPLATE_DIR) /\
  files (snd (main file_for_directory)) = files file_for_directory /\
  printed (log (snd (main file_for_directory))) = [].
Proof.
  split; [reflexivity|].
  apply (main_template_path_is_file file_for_directory (Some "not a directory")).
  reflexivity.
Defined.



(** X6: the run stops at the first matched file, in listing order, whose
    read raises: it raises that exception, it has opened the matched files
    before it and that file, and it opens none of the files after it and
    writes nothing. *)
Theorem main_first_failure (w : world) (names l1 l2 : list string) (fname : string)
        (ts1 : list (string * string)) (e : exn) :
  files w TEMPLATE_DIR = Some (Dir names) ->
  matched names = (l1 ++ fname :: l2)%list ->
  read_all (files w) l1 = Ok ts1 ->
  read_result (files w) (path_join TEMPLATE_DIR fname) = Raise e ->
  fst (main w) = Raise e /\
  files (snd (main w)) = files w /\
  log (snd (main w))
  = (log w ++ EListdir TEMPLATE_DIR
       :: map EOpenRead (map (path_join TEMPLATE_DIR) (l1 ++ [fname])))%list.
Proof.
  intros D M R F.
  destruct (first_failure (files w) l1 l2 fname e ts1 R F) as [A B].
  rewrite <- M in A, B.
  rewrite (main_failure_trace w names e D A). now rewrite B.
Qed.

Lemma main_first_failure_broken_second :
  files broken_second TEMPLATE_DIR = Some (Dir ["a.html"; "b.html"; "c.html"]) /\
  matched ["a.html"; "b.html"; "c.html"] = (["a.html"] ++ "b.html" :: ["c.html"])%list /\
  read_all (files broken_second) ["a.html"] = Ok [("a.html", "<p>hi</p>")] /\
  read_result (files broken_second) (path_join TEMPLATE_DIR "b.html")
  = Raise (ReadError "src/templates/b.html") /\
  fst (main broken_second) = Raise (ReadError "src/templates/b.html") /\
  files (snd (main broken_second)) = files broken_second /\
  log (snd (main broken_second))
  = [EListdir TEMPLATE_DIR; EOpenRead "src/templates/a.html";
     EOpenRead "src/templates/b.html"].
Proof.
  split; [reflexivity|]. split; [reflexivity|].
  split; [reflexivity|]. split; [reflexivity|].
  apply (main_first_failure broken_second ["a.html"; "b.html"; "c.html"]
           ["a.html"] ["c.html"] "b.html" [("a.html", "<p>hi</p>")]); reflexivity.
Defined.

(** X7: a run that reads every matched file, opens the output and writes
    every line prints one line, which gives the number of names of the
    listing that end with [.html]; a run that raises prints nothing. *)
Theorem main_printed_lines :
  (forall w names ts,
     files w TEMPLATE_DIR = Some (Dir names) ->
     read_all (files w) (matched names) = Ok ts ->
     output_openable (files w) = true ->
     encodable_templates ts = true ->
     printed (log (snd (main w)))
     = (printed (log w)
          ++ [success_line OUTPUT_FILE (List.length (matched names))])%list) /\
  (forall w e,
     fst (main w) = Raise e -> printed (log (snd (main w))) = printed (log w)).
Proof.
  split.
  - intros w names ts D R O E.
    destruct (main_success w names ts D R O E) as (fs1 & E1 & S1). rewrite E1.
    cbn [snd log]. rewrite printed_app, printed_success.
    now rewrite <- (read_all_names _ _ _ R), length_map.
  - intros w e F. rewrite main_result_run in F.
    rewrite main_trace_run, printed_app, (main_trace_raise _ e F).
    apply app_nil_r.
Qed.

Lemma main_printed_lines_examples :
  (files two_templates TEMPLATE_DIR = Some (Dir ["a.html"; "b.html"]) /\
   read_all (files two_templates) (matched ["a.html"; "b.html"])
   = Ok [("a.html", "<p>hi</p>"); ("b.html", two_lines)] /\
   output_openable (files two_templates) = true /\
   encodable_templates [("a.html", "<p>hi</p>"); ("b.html", two_lines)] = true /\
   printed (log (snd (main two_templates)))
   = [" Generated src/template.mbt with 2 templates."]) /\
  (fst (main broken_second) = Raise (ReadError "src/templates/b.html") /\
   printed (log (snd (main broken_second))) = []).
Proof.
  destruct main_printed_lines as [A B]. split.
  - split; [reflexivity|]. split; [reflexivity|].
    split; [reflexivity|]. split; [reflexivity|].
    apply (A two_templates ["a.html"; "b.html"]
             [("a.html", "<p>hi</p>"); ("b.html", two_lines)]); reflexivity.
  - assert (F : fst (main broken_second) = Raise (ReadError "src/templates/b.html"))
      by (vm_compute; reflexivity).
    split; [exact F|]. apply (B broken_second _ F).
Defined.

(** X8: the names of the listing that do not end with [.html] have no
    influence: two runs whose listings have the same matched names, with the
    same node at the path of each, and whose output paths are both
    directories or both not, have the same outcome and, when they end
    normally, leave the same output text. *)
Theorem main_ignores_other_entries (w w' : world) (names names' : list string) :
  files w TEMPLATE_DIR = Some (Dir names) ->
  files w' TEMPLATE_DIR = Some (Dir names') ->
  matched names = matched names' ->
  (forall fname, In fname (matched names) ->
     files w (path_join TEMPLATE_DIR fname) = files w' (path_join TEMPLATE_DIR fname)) ->
  output_openable (files w) = output_openable (files w') ->
  fst (main w) = fst (main w') /\
  (fst (main w) = Ok tt ->
   output_text (snd (main w)) = output_text (snd (main w'))).
Proof.
  intros D D' M F O.
  assert (R : read_all (files w') (matched names') = read_all (files w) (matched names)).
  { rewrite <- M. symmetry. now apply read_all_same. }
  assert (G : generated (files w') = generated (files w)).
  { unfold generated. now rewrite D, D', R, O. }
  split.
  - rewrite !main_result_run. unfold main_result. now rewrite D, D', R, O.
  - intros K. destruct (main_ok_generated w names D K) as (text & T).
    unfold output_text. rewrite !main_files_run, !main_files_output.
    now rewrite G, T.
Qed.

Lemma main_ignores_other_entries_notes :
  files html_world TEMPLATE_DIR = Some (Dir ["a.html"; "notes.txt"]) /\
  files html_only_world TEMPLATE_DIR = Some (Dir ["a.html"]) /\
  matched ["a.html"; "notes.txt"] = matched ["a.html"] /\
  output_openable (files html_world) = output_openable (files html_only_world) /\
  fst (main html_world) = fst (main html_only_world) /\
  (fst (main html_world) = Ok tt ->
   output_text (snd (main html_world)) = output_text (snd (main html_only_world))).
Proof.
  split; [reflexivity|]. split; [reflexivity|]. split; [reflexivity|].
  split; [reflexivity|].
  apply (main_ignores_other_entries html_world html_only_world
           ["a.html"; "notes.txt"] ["a.html"]); try reflexivity.
  intros fname [<-|[]]. reflexivity.
Defined.

(** X9: when the output path can be opened, the names and texts are
    encodable, the listing has no repeated name and no matched name holds a
    backslash, a quote or a newline, the function in the file written
    returns, for the name of every matched file, exactly the text read from
    that file. *)
Theorem generated_lookup_returns_text (w : world) (names : list string)
        (ts : list (string * string)) (name t : string) :
  files w TEMPLATE_DIR = Some (Dir names) ->
  read_all (files w) (matched names) = Ok ts ->
  output_openable (files w) = true ->
  encodable_templates ts = true ->
  plain_names ts = true ->
  NoDup names ->
  In (name, t) ts ->
  exists text,
    output_text (snd (main w)) = Some text /\
    load_template text name = Some (Returned t).
Proof.
  intros D R O E P ND I.
  destruct (generated_function_plain_names w names ts D R O E P)
    as (_ & text & T & _ & _ & _ & K).
  exists text. split; [exact T|]. now apply K.
Qed.

Lemma generated_lookup_returns_text_two_lines :
  files two_templates TEMPLATE_DIR = Some (Dir ["a.html"; "b.html"]) /\
  read_all (files two_templates) (matched ["a.html"; "b.html"])
  = Ok [("a.html", "<p>hi</p>"); ("b.html", two_lines)] /\
  output_openable (files two_templates) = true /\
  encodable_templates [("a.html", "<p>hi</p>"); ("b.html", two_lines)] = true /\
  plain_names [("a.html", "<p>hi</p>"); ("b.html", two_lines)] = true /\
  NoDup ["a.html"; "b.html"] /\
  In ("b.html", two_lines) [("a.html", "<p>hi</p>"); ("b.html", two_lines)] /\
  exists text,
    output_text (snd (main two_templates)) = Some text /\
    load_template text "b.html" = Some (Returned two_lines).
Proof.
  assert (ND : NoDup ["a.html"; "b.html"]).
  { constructor; [intros [H|[]]; discriminate H|].
    constructor; [intros []|constructor]. }
  split; [reflexivity|]. split; [reflexivity|]. split; [reflexivity|].
  split; [reflexivity|]. split; [reflexivity|].
  split; [exact ND|]. split; [right; now left|].
  apply (generated_lookup_returns_text two_templates ["a.html"; "b.html"]
           [("a.html", "<p>hi</p>"); ("b.html", two_lines)]);
    try reflexivity; [exact ND | right; now left].
Defined.

(** X10: when the output path can be opened, the names and texts are
    encodable and no matched name holds a line break, the file written has,
    line by line, the header, the opening of the match, one line per matched
    file in listing order, the wildcard arm and the two closing lines:
    whatever a template holds, it takes exactly one line. *)
Theorem main_output_lines (w : world) (names : list string)
        (ts : list (string * string)) :
  files w TEMPLATE_DIR = Some (Dir names) ->
  read_all (files w) (matched names) = Ok ts ->
  output_openable (files w) = true ->
  encodable_templates ts = true ->
  newline_free_names ts = true ->
  exists text,
    output_text (snd (main w)) = Some text /\
    split_lines text
    = HEADER :: MATCH_OPEN
        :: (entries_of ts ++ [FALLBACK; MATCH_CLOSE; FN_CLOSE; EmptyString])%list /\
    List.length (split_lines text) = List.length (matched names) + 6.
Proof.
  intros D R O E N.
  destruct (main_success w names ts D R O E) as (fs1 & E1 & S1). rewrite E1.
  exists (program_text (entries_of ts)).
  split; [apply (output_text_written _ _ _ _ S1)|].
  rewrite (split_lines_program _ (no_newline_entries_of ts N)).
  split; [reflexivity|]. cbn [List.length]. rewrite length_app. cbn [List.length].
  unfold entries_of. rewrite length_map, <- (read_all_names _ _ _ R), length_map.
  lia.
Qed.

Lemma main_output_lines_two_templates :
  files two_templates TEMPLATE_DIR = Some (Dir ["a.html"; "b.html"]) /\
  read_all (files two_templates) (matched ["a.html"; "b.html"])
  = Ok [("a.html", "<p>hi</p>"); ("b.html", two_lines)] /\
  output_openable (files two_templates) = true /\
  encodable_templates [("a.html", "<p>hi</p>"); ("b.html", two_lines)] = true /\
  newline_free_names [("a.html", "<p>hi</p>"); ("b.html", two_lines)] = true /\
  exists text,
    output_text (snd (main two_templates)) = Some text /\
    split_lines text
    = HEADER :: MATCH_OPEN
        :: (entries_of [("a.html", "<p>hi</p>"); ("b.html", two_lines)]
              ++ [FALLBACK; MATCH_CLOSE; FN_CLOSE; EmptyString])%list /\
    List.length (split_lines text) = List.length (matched ["a.html"; "b.html"]) + 6.
Proof.
  split; [reflexivity|]. split; [reflexivity|]. split; [reflexivity|].
  split; [reflexivity|]. split; [reflexivity|].
  apply (main_output_lines two_templates ["a.html"; "b.html"]); reflexivity.
Defined.

(** X11: when every matched file is read and the output path names a
    directory, the run raises [IsADirectoryError] after the reads: no file
    changes and nothing is printed. *)
Theorem main_output_is_directory (w : world) (names ns : list string)
        (ts : list (string * string)) :
  files w TEMPLATE_DIR = Some (Dir names) ->
  read_all (files w) (matched names) = Ok ts ->
  files w OUTPUT_FILE = Some (Dir ns) ->
  fst (main w) = Raise (IsADirectoryError OUTPUT_FILE) /\
  files (snd (main w)) = files w /\
  opened (log (snd (main w)))
  = (opened (log w) ++ map (path_join TEMPLATE_DIR) (matched names))%list /\
  printed (log (snd (main w))) = printed (log w).
Proof.
  intros D R F. rewrite (main_output_directory w names ns ts D R F).
  cbn [fst snd files log]. split; [reflexivity|]. split; [reflexivity|].
  rewrite opened_app, printed_app. cbn [opened printed].
  rewrite opened_app, printed_app, read_events_paths, opened_reads, printed_reads.
  cbn [opened printed]. now rewrite (read_all_names _ _ _ R), !app_nil_r.
Qed.

Lemma main_output_is_directory_html_world :
  files (output_directory html_world) TEMPLATE_DIR = Some (Dir ["a.html"; "notes.txt"]) /\
  read_all (files (output_directory html_world)) (matched ["a.html"; "notes.txt"])
  = Ok [("a.html", "<p>hi</p>")] /\
  files (output_directory html_world) OUTPUT_FILE = Some (Dir []) /\
  fst (main (output_directory html_world)) = Raise (IsADirectoryError OUTPUT_FILE) /\
  files (snd (main (output_directory html_world))) = files (output_directory html_world) /\
  opened (log (snd (main (output_directory html_world)))) = ["src/templates/a.html"] /\
  printed (log (snd (main (output_directory html_world)))) = [].
Proof.
  split; [reflexivity|]. split; [reflexivity|]. split; [reflexivity|].
  apply (main_output_is_directory (output_directory html_world)
           ["a.html"; "notes.txt"] [] [("a.html", "<p>hi</p>")]); reflexivity.
Defined.

Lemma entries_lines_encodable (ts : list (string * string)) :
  encodable_templates ts = true ->
  forallb encodable (map (fun line => line ++ nl) (entries_of ts)) = true.
Proof.
  induction ts as [|[f t] ts IH]; [reflexivity|].
  unfold encodable_templates. cbn [forallb fst snd]. intros H.
  apply andb_true_iff in H as [Hft Hs]. apply andb_true_iff in Hft as [Hf Ht].
  unfold entries_of. cbn [map forallb fst snd].
  rewrite (encodable_arm_line f t Hf Ht). exact (IH Hs).
Qed.

(** X12: when the output path can be opened and a matched file name is not
    encodable (the names and texts before it are), the run raises
    [UnicodeEncodeError] at the line of that file: the output file is left
    with the header, the opening of the match and the lines of the files
    before it, and nothing is printed. *)
Theorem main_unencodable_name (w : world) (names : list string)
        (ts1 ts2 : list (string * string)) (fname text : string) :
  files w TEMPLATE_DIR = Some (Dir names) ->
  read_all (files w) (matched names) = Ok (ts1 ++ (fname, text) :: ts2)%list ->
  output_openable (files w) = true ->
  encodable_templates ts1 = true ->
  encodable fname = false ->
  fst (main w)
  = Raise (UnicodeEncodeError (arm_line fname (escape_content text) ++ nl)) /\
  output_text (snd (main w))
  = Some (HEADER ++ nl ++ MATCH_OPEN ++ nl ++ join_lines (entries_of ts1)) /\
  printed (log (snd (main w))) = printed (log w).
Proof.
  intros D R O E F.
  set (line := arm_line fname (escape_content text) ++ nl).
  set (rest := line :: List.app (map (fun l => l ++ nl) (entries_of ts2))
                            [FALLBACK ++ nl; MATCH_CLOSE ++ nl; FN_CLOSE ++ nl]).
  assert (L : written_lines (entries_of (ts1 ++ (fname, text) :: ts2))
              = (HEADER ++ nl) :: (MATCH_OPEN ++ nl)
                  :: List.app (map (fun l => l ++ nl) (entries_of ts1)) rest).
  { unfold written_lines, entries_of, rest, line.
    rewrite !map_app. cbn [map fst snd]. now rewrite <- app_assoc. }
  destruct (accepted_all _ (entries_lines_encodable ts1 E)) as [A B].
  assert (N : encodable line = false) by now apply not_encodable_arm_line.
  assert (WO : write_outcome (written_lines (entries_of (ts1 ++ (fname, text) :: ts2)))
               = Raise (UnicodeEncodeError line)).
  { rewrite L. cbn [write_outcome].
    replace (encodable (HEADER ++ nl)) with true by reflexivity.
    replace (encodable (MATCH_OPEN ++ nl)) with true by reflexivity.
    rewrite write_outcome_app, B. unfold rest. cbn [write_outcome]. now rewrite N. }
  assert (AC : accepted (written_lines (entries_of (ts1 ++ (fname, text) :: ts2)))
               = (HEADER ++ nl) :: (MATCH_OPEN ++ nl)
                   :: map (fun l => l ++ nl) (entries_of ts1)).
  { rewrite L. cbn [accepted].
    replace (encodable (HEADER ++ nl)) with true by reflexivity.
    replace (encodable (MATCH_OPEN ++ nl)) with true by reflexivity.
    rewrite accepted_app, B. unfold rest. cbn [accepted]. rewrite N.
    now rewrite app_nil_r. }
  split; [|split].
  - rewrite main_result_run. unfold main_result. now rewrite D, R, O, WO.
  - unfold output_text. rewrite main_files_run, main_files_output.
    unfold generated. rewrite D, R, O, AC. cbn [concat_all].
    rewrite <- (app_nil_r (map _ (entries_of ts1))), concat_all_lines.
    cbn [concat_all]. now rewrite !app_assoc_string, app_nil_r_string.
  - rewrite main_trace_run, printed_app.
    rewrite (main_trace_raise _ (UnicodeEncodeError line)); [apply app_nil_r|].
    unfold main_result. now rewrite D, R, O, WO.
Qed.

Lemma main_unencodable_name_raw :
  files raw_name_world TEMPLATE_DIR = Some (Dir ["a.html"; raw_name]) /\
  read_all (files raw_name_world) (matched ["a.html"; raw_name])
  = Ok ([("a.html", "<p>hi</p>")] ++ (raw_name, "x") :: [])%list /\
  output_openable (files raw_name_world) = true /\
  encodable_templates [("a.html", "<p>hi</p>")] = true /\
  encodable raw_name = false /\
  fst (main raw_name_world)
  = Raise (UnicodeEncodeError (arm_line raw_name (escape_content "x") ++ nl)) /\
  output_text (snd (main raw_name_world))
  = Some (HEADER ++ nl ++ MATCH_OPEN ++ nl
            ++ join_lines (entries_of [("a.html", "<p>hi</p>")])) /\
  printed (log (snd (main raw_name_world))) = [].
Proof.
  split; [reflexivity|]. split; [reflexivity|]. split; [reflexivity|].
  split; [reflexivity|]. split; [reflexivity|].
  apply (main_unencodable_name raw_name_world ["a.html"; raw_name]
           [("a.html", "<p>hi</p>")] [] raw_name "x"); reflexivity.
Defined.
